(** * The scan pipeline of the browser extension's service worker

    A shallow embedding of [background.js] (the version with dead-site
    detection): the domain-impersonation heuristic
    [checkSuspiciousDomain], the result store ([clearTabCache],
    [storeScanResult]), the icon mapping ([updateIconForScore]), the scan
    procedure [scanUrl] and the [getCurrentScan] message handler.

    Conventions of the embedding.
    - JavaScript strings are byte strings (UTF-8); every pattern the code
      searches for is ASCII, so substring search agrees with the search on
      UTF-16 code units.
    - Scores, tab ids and HTTP statuses are integers ([Z]).  A field that
      may be [undefined] is an [option].
    - A timestamp is the number of milliseconds since the epoch:
      [new Date().toISOString()] followed by [new Date(s).getTime()] gives
      the millisecond count back, so the ISO text is not modelled.
    - [chrome.storage.local] is a finite map from string keys to stored
      values; the in-memory global [settings] and the observable side
      effects (icon writes, banners, messages, requests, console errors)
      are components of an explicit state.
    - [scanUrl] is embedded twice: as one function, the run from call to
      return with nothing in between, and as the steps between its
      [await]s, which runs in flight at the same time interleave. *)

From Stdlib Require Import ZArith Lia List Bool Ascii String.
From stdpp Require Import base gmap strings pretty list.

Local Open Scope string_scope.
Local Open Scope Z_scope.

(** ** String primitives used by the service worker *)

Module Str.

(** [s.startsWith(p)]. *)
Fixpoint startsWith (p s : string) : bool :=
  match p, s with
  | EmptyString, _ => true
  | String a p', String b s' => if Ascii.eqb a b then startsWith p' s' else false
  | String _ _, EmptyString => false
  end.

(** The text left after removing the prefix [p], when [s] starts with it. *)
Fixpoint stripPrefix (p s : string) : option string :=
  match p, s with
  | EmptyString, _ => Some s
  | String a p', String b s' => if Ascii.eqb a b then stripPrefix p' s' else None
  | String _ _, EmptyString => None
  end.

(** [s.includes(p)]: [p] occurs in [s] as a contiguous substring. *)
Fixpoint includes (p s : string) : bool :=
  startsWith p s ||
  match s with
  | EmptyString => false
  | String _ s' => includes p s'
  end.

(** [s.split(c)[0]]: the characters before the first occurrence of [c]. *)
Fixpoint beforeFirst (c : ascii) (s : string) : string :=
  match s with
  | EmptyString => EmptyString
  | String a s' => if Ascii.eqb a c then EmptyString else String a (beforeFirst c s')
  end.

(** [s.replace(/c/g, d)] for single characters [c] and [d]. *)
Fixpoint replaceAll (c d : ascii) (s : string) : string :=
  match s with
  | EmptyString => EmptyString
  | String a s' => String (if Ascii.eqb a c then d else a) (replaceAll c d s')
  end.

Fixpoint mapChars (f : ascii -> ascii) (s : string) : string :=
  match s with
  | EmptyString => EmptyString
  | String a s' => String (f a) (mapChars f s')
  end.

(** The character class [\d]. *)
Definition isDigit (a : ascii) : bool :=
  let n := N_of_ascii a in ((48 <=? n) && (n <=? 57))%N.

(** [/\d/.test(s)]. *)
Fixpoint hasDigit (s : string) : bool :=
  match s with
  | EmptyString => false
  | String a s' => isDigit a || hasDigit s'
  end.

End Str.

(** ** The domain-impersonation heuristic *)

Record PatternEntry := mkPattern {
  pattern : string;
  score : Z;
  brand : string;
  reason : string
}.

(** The table [suspiciousPatterns], in source order. *)
Definition suspiciousPatterns : list PatternEntry :=
  [ mkPattern "rnicrosoft" 95 "Microsoft" "rn冒充 m (rn looks like m)";
    mkPattern "micr0soft" 90 "Microsoft" "Zero冒充 o (0 looks like o)";
    mkPattern "micros0ft" 90 "Microsoft" "Zero冒充 o (0 looks like o)";
    mkPattern "mlcrosoft" 85 "Microsoft" "l冒充 i (l looks like i)";
    mkPattern "rnicro" 85 "Microsoft" "rn冒充 m";
    mkPattern "g00gle" 95 "Google" "Zeros冒充 oo (00 looks like oo)";
    mkPattern "go0gle" 90 "Google" "Zero冒充 o (0 looks like o)";
    mkPattern "g0ogle" 90 "Google" "Zero冒充 o (0 looks like o)";
    mkPattern "googl" 70 "Google" "Missing letter";
    mkPattern "paypa1" 95 "PayPal" "Number 1冒充 l (1 looks like l)";
    mkPattern "paypai" 90 "PayPal" "i冒充 l (i looks like l)";
    mkPattern "paypal" 0 "PayPal" "Legitimate";
    mkPattern "faceb00k" 95 "Facebook" "Zeros冒充 oo (00 looks like oo)";
    mkPattern "faceb0ok" 90 "Facebook" "Zero冒充 o (0 looks like o)";
    mkPattern "face-book" 85 "Facebook" "Hyphenated";
    mkPattern "amaz0n" 95 "Amazon" "Zero冒充 o (0 looks like o)";
    mkPattern "amazn" 80 "Amazon" "Missing o";
    mkPattern "arnazon" 90 "Amazon" "rn冒充 m";
    mkPattern "app1e" 95 "Apple" "Number 1冒充 l (1 looks like l)";
    mkPattern "appple" 85 "Apple" "Double p冒充";
    mkPattern "aple" 70 "Apple" "Missing p";
    mkPattern "netfl1x" 95 "Netflix" "Number 1冒充 i (1 looks like i)";
    mkPattern "netfllx" 85 "Netflix" "Double l冒充";
    mkPattern "chase" 0 "Chase" "Legitimate";
    mkPattern "chase-bank" 75 "Chase" "Hyphenated";
    mkPattern "instagrarn" 90 "Instagram" "rn冒充 m";
    mkPattern "linkedln" 90 "LinkedIn" "ln冒充 in";
    mkPattern "tw1tter" 90 "Twitter" "Number 1冒充 i";
    mkPattern "twltter" 85 "Twitter" "l冒充 i" ].

(** The list [brands] of the number-substitution pass. *)
Definition brands : list string :=
  [ "microsoft"; "google"; "paypal"; "facebook"; "amazon"; "apple"; "netflix" ].

Definition HIGH_RISK : string := "🔴 HIGH RISK".
Definition MEDIUM_RISK : string := "🟡 MEDIUM RISK".

(** [url.replace(/^https?:\/\//, '')]. *)
Definition stripScheme (url : string) : string :=
  match Str.stripPrefix "https://" url with
  | Some rest => rest
  | None =>
      match Str.stripPrefix "http://" url with
      | Some rest => rest
      | None => url
      end
  end.

(** [domain.replace(/^www\./, '')]. *)
Definition stripWww (domain : string) : string :=
  match Str.stripPrefix "www." domain with
  | Some rest => rest
  | None => domain
  end.

(** The local [domain] of [checkSuspiciousDomain]. *)
Definition extractDomain (url : string) : string :=
  stripWww (Str.beforeFirst "/" (stripScheme url)).

(** The local [normalized]: six global replacements, applied in order. *)
Definition normalizeDigits (domain : string) : string :=
  Str.replaceAll "7" "t"
    (Str.replaceAll "5" "s"
      (Str.replaceAll "4" "a"
        (Str.replaceAll "3" "e"
          (Str.replaceAll "1" "l"
            (Str.replaceAll "0" "o" domain))))).

(** The object [checkSuspiciousDomain] resolves to; [{ suspicious: false }]
    leaves the other fields undefined. *)
Record DomainCheck := mkDomainCheck {
  suspicious : bool;
  dc_score : option Z;
  dc_risk_level : option string;
  dc_findings : option (list string)
}.

Definition notSuspicious : DomainCheck := mkDomainCheck false None None None.

(** The first table entry whose pattern the domain includes: the [for]
    loop over [suspiciousPatterns] returns at its first hit. *)
Definition matchPattern (domain : string) : option PatternEntry :=
  List.find (fun item => Str.includes (pattern item) domain) suspiciousPatterns.

(** The first brand of [brands] that the normalized text includes and the
    raw domain does not: the inner [for] loop of the substitution pass. *)
Definition matchBrand (domain normalized : string) : option string :=
  List.find (fun b => Str.includes b normalized && negb (Str.includes b domain)) brands.

(** [checkSuspiciousDomain(url)].  The argument is a string, so nothing in
    the body throws and the [catch] branch is never taken. *)
Definition checkSuspiciousDomain (url : string) : DomainCheck :=
  let domain := extractDomain url in
  match matchPattern domain with
  | Some item =>
      if score item =? 0 then notSuspicious
      else
        mkDomainCheck true (Some (score item))
          (Some (if 70 <=? score item then HIGH_RISK else MEDIUM_RISK))
          (Some [ "⚠️ Domain '" +:+ domain +:+ "' impersonates " +:+ brand item;
                  "⚠️ " +:+ reason item;
                  "⚠️ Site appears down but domain is suspicious" ])
  | None =>
      if Str.hasDigit domain then
        let normalized := normalizeDigits domain in
        match matchBrand domain normalized with
        | Some b =>
            mkDomainCheck true (Some 85) (Some HIGH_RISK)
              (Some [ "⚠️ Domain '" +:+ domain +:+ "' uses number substitution to mimic '" +:+ b +:+ "'";
                      "⚠️ Site appears down but domain is clearly suspicious" ])
        | None => notSuspicious
        end
      else notSuspicious
  end.

(** Which rule of the heuristic decides the answer for a domain: the
    control-flow skeleton of [checkSuspiciousDomain] without the text it
    builds.  [checkSuspiciousDomain_verdict] below relates the two. *)
Inductive Verdict :=
| ByPattern (item : PatternEntry)
| BySubstitution (brandName : string)
| Clean.

Definition verdict (domain : string) : Verdict :=
  match matchPattern domain with
  | Some item => ByPattern item
  | None =>
      if Str.hasDigit domain then
        match matchBrand domain (normalizeDigits domain) with
        | Some b => BySubstitution b
        | None => Clean
        end
      else Clean
  end.

(** The digit-to-letter map of the substitution pass, written as one
    function on characters: 0 to o, 1 to l, 3 to e, 4 to a, 5 to s,
    7 to t, every other character unchanged. *)
Definition digitToLetter (a : ascii) : ascii :=
  match a with
  | "0" => "o"
  | "1" => "l"
  | "3" => "e"
  | "4" => "a"
  | "5" => "s"
  | "7" => "t"
  | _ => a
  end%char.

(** The two table entries for Chase. *)
Definition chaseEntry : PatternEntry := mkPattern "chase" 0 "Chase" "Legitimate".
Definition chaseBankEntry : PatternEntry := mkPattern "chase-bank" 75 "Chase" "Hyphenated".

(** The patterns of a list of entries that a domain does not include. *)
Definition noneIncluded (entries : list PatternEntry) (domain : string) : bool :=
  forallb (fun item => negb (Str.includes (pattern item) domain)) entries.

(** ** State of the service worker *)

(** [CONFIG.icons]. *)
Module CONFIG.

Definition icons_safe : string := "icons/safe-one.png".
Definition icons_warning : string := "icons/yellow-alert.png".
Definition icons_danger : string := "icons/alertt.png".

End CONFIG.

(** A scan result: the JSON object the scoring service answers with, or
    the object [scanUrl] builds from the heuristic.  A field is [None]
    when the object does not have it. *)
Record ScanResult := mkResult {
  res_score : option Z;
  res_risk_level : option string;
  res_findings : option (list string)
}.

Record HistoryEntry := mkEntry {
  h_url : string;
  h_score : Z;
  h_risk_level : option string;
  h_timestamp : Z
}.

Record Settings := mkSettings {
  autoScan : bool;
  showWarnings : bool;
  scanHistory : list HistoryEntry
}.

Record LastScan := mkLastScan {
  ls_tabId : Z;
  ls_url : string;
  ls_result : ScanResult;
  ls_timestamp : Z
}.

(** What [chrome.storage.local] holds under a key. *)
Inductive StoreValue :=
| VResult (r : ScanResult)
| VLastScan (l : LastScan)
| VSettings (s : Settings).

(** What can make [scanUrl] jump to its [catch] block. *)
Inductive Error :=
| ApiNotReachable          (* the request was aborted or the transport failed *)
| ApiError (status : Z)    (* [`API error: ${response.status}`] *)
| BodyNotJson.             (* [response.json()] rejected *)

Inductive Effect :=
| Fetch (url : string)                          (* POST to [CONFIG.apiUrl] *)
| SetIcon (tabId : Z) (path : string)           (* [chrome.action.setIcon] *)
| ShowWarning (tabId : Z) (score : option Z)    (* the banner script *)
| ScanComplete (tabId : Z) (result : ScanResult)(* message to the popup *)
| ConsoleError (e : Error).

Record State := mkState {
  storage : gmap string StoreValue;
  settings : Settings;
  effects : list Effect          (* most recent first *)
}.

Definition initialSettings : Settings := mkSettings true true [].

(** Template literals [`scan_${tabId}`] and [`scan_${url}`]. *)
Definition scanKeyTab (tabId : Z) : string := "scan_" +:+ pretty tabId.
Definition scanKeyUrl (url : string) : string := "scan_" +:+ url.

Definition emit (e : Effect) (st : State) : State :=
  mkState (storage st) (settings st) (e :: effects st).

(** [score >= n] on a possibly undefined score: [undefined >= n] is false. *)
Definition geq (score : option Z) (n : Z) : bool :=
  match score with
  | Some s => n <=? s
  | None => false
  end.

(** ** Result store *)

Definition clearTabCache (tabId : Z) (st : State) : State :=
  mkState (delete (scanKeyTab tabId) (storage st)) (settings st) (effects st).

(** [storeScanResult].  The clock is read twice: [storedAt] when the
    object passed to [chrome.storage.local.set] is built, [loggedAt] in
    the callback that extends the history. *)
Definition storeScanResult (tabId : Z) (url : string) (result : ScanResult)
    (storedAt loggedAt : Z) (st : State) : State :=
  let stored :=
    <["lastScan" := VLastScan (mkLastScan tabId url result storedAt)]>
      (<[scanKeyUrl url := VResult result]>
        (<[scanKeyTab tabId := VResult result]> (storage st))) in
  match res_score result with
  | Some s =>
      let unshifted :=
        mkEntry url s (res_risk_level result) loggedAt :: scanHistory (settings st) in
      let kept :=
        if (20 <? Z.of_nat (length unshifted)) then removelast unshifted else unshifted in
      let settings' := mkSettings (autoScan (settings st)) (showWarnings (settings st)) kept in
      mkState (<["settings" := VSettings settings']> stored) settings' (effects st)
  | None => mkState stored (settings st) (effects st)
  end.

(** [unshift] followed by the conditional [pop]. *)
Definition unshiftCapped (e : HistoryEntry) (h : list HistoryEntry) : list HistoryEntry :=
  if 20 <? Z.of_nat (length (e :: h)) then removelast (e :: h) else e :: h.

(** A call of [storeScanResult] together with its two clock readings. *)
Record Write := mkWrite {
  w_tabId : Z;
  w_url : string;
  w_result : ScanResult;
  w_storedAt : Z;
  w_loggedAt : Z
}.

Definition applyWrite (st : State) (w : Write) : State :=
  storeScanResult (w_tabId w) (w_url w) (w_result w) (w_storedAt w) (w_loggedAt w) st.

(** Writes in the order they happen. *)
Definition applyWrites (ws : list Write) (st : State) : State :=
  fold_left applyWrite ws st.

(** The history entry a write gives rise to, if its result has a score. *)
Definition entryOf (w : Write) : option HistoryEntry :=
  match res_score (w_result w) with
  | Some s => Some (mkEntry (w_url w) s (res_risk_level (w_result w)) (w_loggedAt w))
  | None => None
  end.

Definition historyOf (st : State) : list HistoryEntry := scanHistory (settings st).

Definition emptyState : State := mkState ∅ initialSettings [].

(** Twenty-one writes, the [n]-th one with score [n] at time [n]. *)
Definition sampleWrite (n : nat) : Write :=
  mkWrite 1 "https://example.com/" (mkResult (Some (Z.of_nat n)) None None)
    (Z.of_nat n) (Z.of_nat n).

(** ** Presentation *)

Definition safeSetIcon (tabId : Z) (iconPath : string) (st : State) : State :=
  emit (SetIcon tabId iconPath) st.

(** The local [iconPath] of [updateIconForScore]. *)
Definition iconPathForScore (score : option Z) : string :=
  if geq score 70 then CONFIG.icons_danger
  else if geq score 40 then CONFIG.icons_warning
  else CONFIG.icons_safe.

Definition updateIconForScore (score : option Z) (tabId : Z) (st : State) : State :=
  safeSetIcon tabId (iconPathForScore score) st.

Definition showWarningSafely (tabId : Z) (score : option Z) (st : State) : State :=
  emit (ShowWarning tabId score) st.

(** [popup.js], [updateDisplay]: the text of the risk-level label. *)
Definition riskLevelText (score : option Z) : string :=
  if geq score 70 then "🔴 CRITICAL"
  else if geq score 40 then "🟡 MEDIUM"
  else "✅ SAFE".

(** The icon a tab shows: its most recent icon write. *)
Fixpoint iconIn (tabId : Z) (log : list Effect) : option string :=
  match log with
  | [] => None
  | SetIcon t path :: rest => if decide (t = tabId) then Some path else iconIn tabId rest
  | _ :: rest => iconIn tabId rest
  end.

Definition iconOf (tabId : Z) (st : State) : option string := iconIn tabId (effects st).

(** How many requests to the scoring service a log records. *)
Fixpoint fetchCount (log : list Effect) : nat :=
  match log with
  | [] => O
  | Fetch _ :: rest => S (fetchCount rest)
  | _ :: rest => fetchCount rest
  end.

(** ** Asynchronous code with exceptions

    A [Task] threads the state and either returns a value or throws; what
    was done before a throw stays done. *)

Definition Task (A : Type) : Type := State -> (Error + A) * State.

Global Instance task_ret : MRet Task := fun A (a : A) st => (inr a, st).

Global Instance task_bind : MBind Task := fun A B (k : A -> Task B) (c : Task A) st =>
  match c st with
  | (inr a, st') => k a st'
  | (inl e, st') => (inl e, st')
  end.

Definition throw {A : Type} (e : Error) : Task A := fun st => (inl e, st).

(** Run a state change that cannot fail. *)
Definition act (f : State -> State) : Task unit := fun st => (inr tt, f st).

(** Read the global [settings]. *)
Definition getSettings : Task Settings := fun st => (inr (settings st), st).

(** [try { body } catch (error) { handler(error) }]. *)
Definition tryCatch (body : Task unit) (handler : Error -> State -> State) : State -> State :=
  fun st =>
    match body st with
    | (inr _, st') => st'
    | (inl e, st') => handler e st'
    end.

(** ** The scan procedure *)

(** What the scoring service sent back; [body] is what [response.json()]
    resolves to, [None] when it rejects. *)
Record Response := mkResponse {
  status : Z;
  body : option ScanResult
}.

(** [response.ok]. *)
Definition ok (r : Response) : bool := (200 <=? status r) && (status r <=? 299).

(** How the request ends: rejected (aborted after five seconds, or a
    transport failure) or answered. *)
Inductive FetchOutcome :=
| Rejected
| Responded (r : Response).

(** What one run of [scanUrl] gets from its environment. *)
Record ScanEnv := mkEnv {
  outcome : FetchOutcome;
  storedAt : Z;
  loggedAt : Z
}.

(** [await fetch(...)] with its [.catch] that rethrows. *)
Definition fetch (url : string) (o : FetchOutcome) : Task Response :=
  fun st =>
    match o with
    | Rejected => (inl ApiNotReachable, emit (Fetch url) st)
    | Responded r => (inr r, emit (Fetch url) st)
    end.

(** [await response.json()]. *)
Definition json (r : Response) : Task ScanResult :=
  match body r with
  | Some result => mret result
  | None => throw BodyNotJson
  end.

(** The steps shared by both successful paths: store, icon, banner,
    notification. *)
Definition settle (url : string) (tabId : Z) (result : ScanResult) (env : ScanEnv) : Task unit :=
  act (storeScanResult tabId url result (storedAt env) (loggedAt env)) ;;
  act (updateIconForScore (res_score result) tabId) ;;
  s ← getSettings ;
  (if geq (res_score result) 70 && showWarnings s
   then act (showWarningSafely tabId (res_score result))
   else mret tt) ;;
  act (emit (ScanComplete tabId result)).

(** The state the shared steps end in. *)
Definition settledState (url : string) (tabId : Z) (result : ScanResult) (env : ScanEnv)
    (st : State) : State :=
  let st1 := storeScanResult tabId url result (storedAt env) (loggedAt env) st in
  let st2 := updateIconForScore (res_score result) tabId st1 in
  let st3 :=
    if geq (res_score result) 70 && showWarnings (settings st2)
    then showWarningSafely tabId (res_score result) st2
    else st2 in
  emit (ScanComplete tabId result) st3.

(** The result built for a suspicious domain whose site is down. *)
Definition deadSiteResult (url : string) (httpStatus : Z) (domainCheck : DomainCheck) : ScanResult :=
  mkResult (dc_score domainCheck) (dc_risk_level domainCheck)
    (Some (match dc_findings domainCheck with
           | Some f => f
           | None =>
               [ "⚠️ Domain " +:+ url +:+ " appears suspicious but site is down ("
                 +:+ pretty httpStatus +:+ " error)" ]
           end)).

(** The [try] block of [scanUrl]. *)
Definition scanUrl_try (url : string) (tabId : Z) (env : ScanEnv) : Task unit :=
  act (clearTabCache tabId) ;;
  act (safeSetIcon tabId CONFIG.icons_safe) ;;
  response ← fetch url (outcome env) ;
  if negb (ok response) then
    let domainCheck := checkSuspiciousDomain url in
    if suspicious domainCheck then
      settle url tabId (deadSiteResult url (status response) domainCheck) env
    else throw (ApiError (status response))
  else
    result ← json response ;
    settle url tabId result env.

(** The [catch] block of [scanUrl]. *)
Definition scanUrl_catch (tabId : Z) (e : Error) (st : State) : State :=
  safeSetIcon tabId CONFIG.icons_safe (emit (ConsoleError e) st).

Definition scanUrl (url : string) (tabId : Z) (env : ScanEnv) : State -> State :=
  tryCatch (scanUrl_try url tabId env) (scanUrl_catch tabId).

(** The state while [scanUrl] is suspended at [await fetch(...)]. *)
Definition scanUrl_pending (url : string) (tabId : Z) (st : State) : State :=
  emit (Fetch url) (safeSetIcon tabId CONFIG.icons_safe (clearTabCache tabId st)).

(** The failures of a scan: the request times out or the transport fails;
    the service answers with a non-2xx status and the domain is not
    suspicious; the service answers with a 2xx status and a body that is
    not JSON. *)
Definition scanFails (url : string) (env : ScanEnv) : Prop :=
  outcome env = Rejected \/
  exists r, outcome env = Responded r /\
    (ok r = false /\ suspicious (checkSuspiciousDomain url) = false \/
     ok r = true /\ body r = None).

(** The result a run of [scanUrl] ends up storing, if it stores one. *)
Definition scanResultOf (url : string) (env : ScanEnv) : option ScanResult :=
  match outcome env with
  | Rejected => None
  | Responded r =>
      if ok r then body r
      else if suspicious (checkSuspiciousDomain url)
           then Some (deadSiteResult url (status r) (checkSuspiciousDomain url))
           else None
  end.

(** Two environments: the service answers 502; the request is aborted. *)
Definition badGateway : ScanEnv := mkEnv (Responded (mkResponse 502 None)) 1000 1001.
Definition timedOut : ScanEnv := mkEnv Rejected 1000 1001.

(** The service answers 200 with a score of 82 and its own risk level. *)
Definition riskyAnswer : ScanEnv :=
  mkEnv (Responded (mkResponse 200 (Some (mkResult (Some 82) (Some "low") (Some [])))))
    5000 5001.

(** ** The [getCurrentScan] query *)

Record Tab := mkTab {
  tab_id : Z;
  tab_url : option string
}.

(** [result[`scan_${tabId}`]] read from storage. *)
Definition readScan (tabId : Z) (st : State) : option StoreValue :=
  storage st !! scanKeyTab tabId.

(** The freshness test of the handler: the cached record to answer with,
    if there is one.  Every stored value is an object, hence truthy; only
    the last-scan pointer has a [tabId] field. *)
Definition freshScan (tabId now : Z) (st : State) : option StoreValue :=
  match readScan tabId st, storage st !! "lastScan" with
  | Some scan, Some (VLastScan lastScan) =>
      if decide (ls_tabId lastScan = tabId) then
        if now - ls_timestamp lastScan <? 30000 then Some scan else None
      else None
  | _, _ => None
  end.

(** How far the scan started by the handler has got when the 1.5-second
    timer fires. *)
Inductive Progress :=
| StillFetching
| Finished (env : ScanEnv).

(** The handler of [getCurrentScan]: the response sent ([None] is [null])
    and the state at that moment. *)
Definition getCurrentScan (tabs : list Tab) (now : Z) (progress : Progress)
    (st : State) : option StoreValue * State :=
  match tabs with
  | [] => (None, st)
  | tab :: _ =>
      let tabId := tab_id tab in
      match freshScan tabId now st with
      | Some scan => (Some scan, st)
      | None =>
          match tab_url tab with
          | Some url =>
              if String.eqb url "" then (None, st)
              else
                let st' :=
                  match progress with
                  | StillFetching => scanUrl_pending url tabId st
                  | Finished env => scanUrl url tabId env st
                  end in
                (readScan tabId st', st')
          | None => (None, st)
          end
      end
  end.

(** ** The scan procedure, step by step

    [scanUrl] is an [async] function: it gives up control at each [await]
    that waits for the browser or the network ([clearTabCache], [fetch],
    [response.json], [storeScanResult]), and other handlers, among them
    other runs of [scanUrl] for the same tab, run in between.  A step is
    what one run does between two such points; code that follows an
    [await] on an already settled promise runs in the same step.  Storage
    calls take effect in the order they are issued.
    [scan_alone] below shows that the steps of a run, taken without
    interruption, make up [scanUrl]. *)

(** Where a run of [scanUrl] stands. *)
Inductive Stage :=
| Starting                            (* called, nothing done yet *)
| Clearing                            (* at [await clearTabCache(tabId)] *)
| Fetching                            (* at [await fetch(...)] *)
| Parsing (r : Response)              (* at [await response.json()] *)
| Storing (result : ScanResult)       (* at [await storeScanResult(...)] *)
| Settled (result : ScanResult)       (* returned after storing [result] *)
| Failed (e : Error).                 (* returned from the [catch] block *)

(** A call [scanUrl(url, tabId)] with what it will get from its environment. *)
Record Scan := mkScan {
  scan_url : string;
  scan_tabId : Z;
  scan_env : ScanEnv
}.

(** The call of [chrome.storage.local.set] that opens [storeScanResult]. *)
Definition storeScanResult_set (tabId : Z) (url : string) (result : ScanResult)
    (storedAt : Z) (st : State) : State :=
  mkState
    (<["lastScan" := VLastScan (mkLastScan tabId url result storedAt)]>
      (<[scanKeyUrl url := VResult result]>
        (<[scanKeyTab tabId := VResult result]> (storage st))))
    (settings st) (effects st).

(** The callback of that call: the history and its copy in the store. *)
Definition storeScanResult_callback (url : string) (result : ScanResult)
    (loggedAt : Z) (st : State) : State :=
  match res_score result with
  | Some s =>
      let unshifted :=
        mkEntry url s (res_risk_level result) loggedAt :: scanHistory (settings st) in
      let kept :=
        if (20 <? Z.of_nat (length unshifted)) then removelast unshifted else unshifted in
      let settings' := mkSettings (autoScan (settings st)) (showWarnings (settings st)) kept in
      mkState (<["settings" := VSettings settings']> (storage st)) settings' (effects st)
  | None => st
  end.

(** What [scanUrl] does once [storeScanResult] has resolved. *)
Definition afterStore (tabId : Z) (result : ScanResult) (st : State) : State :=
  let st2 := updateIconForScore (res_score result) tabId st in
  let st3 :=
    if geq (res_score result) 70 && showWarnings (settings st2)
    then showWarningSafely tabId (res_score result) st2
    else st2 in
  emit (ScanComplete tabId result) st3.

(** One step of a run: the stage it moves to and the state it leaves. *)
Definition stepScan (sc : Scan) (stage : Stage) (st : State) : Stage * State :=
  let url := scan_url sc in
  let tabId := scan_tabId sc in
  let env := scan_env sc in
  match stage with
  | Starting => (Clearing, clearTabCache tabId st)
  | Clearing => (Fetching, emit (Fetch url) (safeSetIcon tabId CONFIG.icons_safe st))
  | Fetching =>
      match outcome env with
      | Rejected => (Failed ApiNotReachable, scanUrl_catch tabId ApiNotReachable st)
      | Responded r =>
          if negb (ok r) then
            let domainCheck := checkSuspiciousDomain url in
            if suspicious domainCheck then
              let result := deadSiteResult url (status r) domainCheck in
              (Storing result, storeScanResult_set tabId url result (storedAt env) st)
            else (Failed (ApiError (status r)), scanUrl_catch tabId (ApiError (status r)) st)
          else (Parsing r, st)
      end
  | Parsing r =>
      match body r with
      | Some result =>
          (Storing result, storeScanResult_set tabId url result (storedAt env) st)
      | None => (Failed BodyNotJson, scanUrl_catch tabId BodyNotJson st)
      end
  | Storing result =>
      (Settled result,
       afterStore tabId result (storeScanResult_callback url result (loggedAt env) st))
  | Settled _ | Failed _ => (stage, st)
  end.

(** The runs in flight, each with its stage, and the state they share:
    [advance i] lets the [i]-th run take its next step. *)
Definition advance (i : nat) (cfg : State * list (Scan * Stage)) : State * list (Scan * Stage) :=
  match snd cfg !! i with
  | Some (sc, stage) =>
      let (stage', st') := stepScan sc stage (fst cfg) in
      (st', <[i := (sc, stage')]> (snd cfg))
  | None => cfg
  end.

(** Steps taken in the order of a schedule. *)
Definition interleave (schedule : list nat) (cfg : State * list (Scan * Stage))
    : State * list (Scan * Stage) :=
  fold_left (fun c i => advance i c) schedule cfg.

(** Runs that have been called and not yet taken a step. *)
Definition launch (scans : list Scan) : list (Scan * Stage) :=
  map (fun sc => (sc, Starting)) scans.

(** A run taken from its call to its return with nothing in between. *)
Definition runAlone (sc : Scan) (st : State) : State :=
  fst (interleave [0; 0; 0; 0; 0]%nat (st, launch [sc])).

(** The stages a given run can be in. *)
Definition possible (sc : Scan) (stage : Stage) : Prop :=
  match stage with
  | Starting | Clearing | Fetching => True
  | Parsing r => outcome (scan_env sc) = Responded r /\ ok r = true
  | Storing result | Settled result =>
      scanResultOf (scan_url sc) (scan_env sc) = Some result
  | Failed _ => scanResultOf (scan_url sc) (scan_env sc) = None
  end.

(** What holds of a tab's entry and icon at each stage of its only run. *)
Definition tracks (sc : Scan) (stage : Stage) (st : State) : Prop :=
  possible sc stage /\
  match stage with
  | Starting => True
  | Clearing | Fetching | Parsing _ => readScan (scan_tabId sc) st = None
  | Storing result => readScan (scan_tabId sc) st = Some (VResult result)
  | Settled result =>
      readScan (scan_tabId sc) st = Some (VResult result) /\
      iconOf (scan_tabId sc) st = Some (iconPathForScore (res_score result))
  | Failed _ =>
      readScan (scan_tabId sc) st = None /\
      iconOf (scan_tabId sc) st = Some CONFIG.icons_safe
  end.

(** No run other than the [i]-th is for the tab, and the others are for
    URLs (which have a colon). *)
Definition aloneOnTab (i : nat) (tabId : Z) (scans : list Scan) : Prop :=
  forall j other, j <> i -> scans !! j = Some other ->
    scan_tabId other <> tabId /\ Str.includes ":" (scan_url other) = true.

(** Two runs for tab 3: one that the service answers, one that times out. *)
Definition answeredScan : Scan := mkScan "https://shop.example/" 3 riskyAnswer.
Definition abortedScan : Scan := mkScan "https://shop.example/cart" 3 timedOut.

(** A run for tab 4 that the service answers. *)
Definition neighbourScan : Scan := mkScan "https://a.example/" 4 riskyAnswer.

(** ** Triggers and messages *)

(** [chrome.tabs.onUpdated]: [changeStatus] is [changeInfo.status]. *)
Definition onUpdated (tabId : Z) (changeStatus : option string) (tab : Tab)
    (env : ScanEnv) (st : State) : State :=
  match changeStatus, tab_url tab with
  | Some s, Some url =>
      if String.eqb s "complete" && negb (String.eqb url "") && autoScan (settings st) then
        if negb (Str.startsWith "chrome://" url) &&
           negb (Str.startsWith "brave://" url) &&
           negb (Str.startsWith "about:" url)
        then scanUrl url tabId env st
        else st
      else st
  | _, _ => st
  end.

(** [chrome.tabs.onActivated]: [tab] is what [chrome.tabs.get] hands to the
    callback for [activeInfo.tabId]. *)
Definition onActivated (tabId : Z) (tab : Tab) (env : ScanEnv) (st : State) : State :=
  match tab_url tab with
  | Some url =>
      if negb (String.eqb url "") && autoScan (settings st)
      then scanUrl url tabId env st
      else st
  | None => st
  end.

(** The messages the service worker listens for, by [request.action]. *)
Inductive Request :=
| GetCurrentScan
| ScanUrl (url : string) (tabId : Z)
| ClearCache
| GetHistory
| OtherAction.

(** What [sendResponse] is called with, if it is called. *)
Inductive Reply :=
| ReplyScan (scan : option StoreValue)
| ReplySuccess
| ReplyHistory (history : list HistoryEntry)
| NoReply.

(** [chrome.storage.local.clear]. *)
Definition clearStorage (st : State) : State :=
  mkState ∅ (settings st) (effects st).

(** The [chrome.runtime.onMessage] listener.  [tabs], [now] and [progress]
    are what the [getCurrentScan] branch gets from the browser, [env] what
    the scan started by the [scanUrl] branch gets. *)
Definition onMessage (request : Request) (tabs : list Tab) (now : Z)
    (progress : Progress) (env : ScanEnv) (st : State) : Reply * State :=
  match request with
  | GetCurrentScan =>
      let (scan, st') := getCurrentScan tabs now progress st in (ReplyScan scan, st')
  | ScanUrl url tabId => (ReplySuccess, scanUrl url tabId env (clearTabCache tabId st))
  | ClearCache => (ReplySuccess, clearStorage st)
  | GetHistory => (ReplyHistory (scanHistory (settings st)), st)
  | OtherAction => (NoReply, st)
  end.

(** The callback that loads the settings at startup:
    [settings = {...settings, ...result.settings}] when the key is there.
    The only object this code stores under the key has all three fields,
    so the merge over the defaults gives the stored settings. *)
Definition loadSettings (st : State) : State :=
  match storage st !! "settings" with
  | Some (VSettings stored) => mkState (storage st) stored (effects st)
  | _ => st
  end.

(** The service worker starting over a given store: the global [settings]
    are the defaults until the stored ones are loaded.  The health check,
    which only writes to the console, is not recorded. *)
Definition restart (st : State) : State :=
  loadSettings (mkState (storage st) initialSettings (effects st)).

(** What can happen to the service worker. *)
Inductive Event :=
| Updated (tabId : Z) (changeStatus : option string) (tab : Tab) (env : ScanEnv)
| Activated (tabId : Z) (tab : Tab) (env : ScanEnv)
| Message (request : Request) (tabs : list Tab) (now : Z) (progress : Progress)
    (env : ScanEnv)
| Restarted.

Definition handle (st : State) (ev : Event) : State :=
  match ev with
  | Updated tabId changeStatus tab env => onUpdated tabId changeStatus tab env st
  | Activated tabId tab env => onActivated tabId tab env st
  | Message request tabs now progress env =>
      snd (onMessage request tabs now progress env st)
  | Restarted => restart st
  end.

(** Events handled one after the other, from a fresh install. *)
Definition run (events : list Event) : State := fold_left handle events emptyState.

(** The history is within its cap, both flags are on, the stored settings
    (if any) are the ones in memory, and the entry of the tab named by the
    last-scan pointer (if any) is the pointer's result. *)
Definition consistent (st : State) : Prop :=
  (length (historyOf st) <= 20)%nat /\
  autoScan (settings st) = true /\
  showWarnings (settings st) = true /\
  (forall v, storage st !! "settings" = Some v -> v = VSettings (settings st)) /\
  (forall v, storage st !! "lastScan" = Some v ->
     exists l, v = VLastScan l /\
       forall w, readScan (ls_tabId l) st = Some w -> w = VResult (ls_result l)).

(** ** The popup *)

(** [popup.js], [loadCurrentSite]: the score handed to [updateDisplay],
    [scan.score] of the tab's entry or of the default object
    [{ score: 0, findings: ['No data yet'] }]. *)
Definition popupScore (tabId : Z) (st : State) : option Z :=
  match readScan tabId st with
  | Some (VResult r) => res_score r
  | Some _ => None
  | None => Some 0
  end.

(** The level label the popup shows for a tab. *)
Definition popupLevel (tabId : Z) (st : State) : string :=
  riskLevelText (popupScore tabId st).

(** ** The earlier version of the heuristic

    The second [background.js] of the repository (the version with cache
    clearing) has its own [checkSuspiciousDomain]: no [www.] stripping, a
    shorter table without score-0 entries, and a fixed risk level. *)

Module Earlier.

Definition suspiciousPatterns : list PatternEntry :=
  [ mkPattern "app1e" 90 "Apple" "Number 1冒充 letter l";
    mkPattern "appple" 85 "Apple" "Double p冒充";
    mkPattern "aple" 70 "Apple" "Missing p";
    mkPattern "g00gle" 90 "Google" "Zeros冒充 letters o";
    mkPattern "go0gle" 85 "Google" "Zero冒充 o";
    mkPattern "g0ogle" 85 "Google" "Zero冒充 o";
    mkPattern "rnicrosoft" 95 "Microsoft" "rn冒充 m";
    mkPattern "micr0soft" 90 "Microsoft" "Zero冒充 o";
    mkPattern "micros0ft" 90 "Microsoft" "Zero冒充 o";
    mkPattern "paypa1" 90 "PayPal" "Number 1冒充 l";
    mkPattern "paypai" 85 "PayPal" "i冒充 l";
    mkPattern "faceb00k" 95 "Facebook" "Zeros冒充 oo";
    mkPattern "faceb0ok" 90 "Facebook" "Zero冒充 o";
    mkPattern "amaz0n" 90 "Amazon" "Zero冒充 o";
    mkPattern "amazn" 80 "Amazon" "Missing o" ].

Definition brands : list string :=
  [ "apple"; "google"; "microsoft"; "paypal"; "facebook"; "amazon" ].

Definition extractDomain (url : string) : string :=
  Str.beforeFirst "/" (stripScheme url).

Definition matchPattern (domain : string) : option PatternEntry :=
  List.find (fun item => Str.includes (pattern item) domain) suspiciousPatterns.

Definition matchBrand (domain normalized : string) : option string :=
  List.find (fun b => Str.includes b normalized && negb (Str.includes b domain)) brands.

Definition checkSuspiciousDomain (url : string) : DomainCheck :=
  let domain := extractDomain url in
  match matchPattern domain with
  | Some item =>
      mkDomainCheck true (Some (score item)) (Some HIGH_RISK)
        (Some [ "⚠️ Domain '" +:+ domain +:+ "' impersonates " +:+ brand item;
                "⚠️ " +:+ reason item;
                "⚠️ Site appears down (502 error) but domain is suspicious" ])
  | None =>
      if Str.hasDigit domain then
        let normalized := normalizeDigits domain in
        match matchBrand domain normalized with
        | Some b =>
            mkDomainCheck true (Some 85) (Some HIGH_RISK)
              (Some [ "⚠️ Domain '" +:+ domain +:+ "' uses number substitution to mimic '" +:+ b +:+ "'";
                      "⚠️ Site appears down but domain is clearly suspicious" ])
        | None => notSuspicious
        end
      else notSuspicious
  end.

End Earlier.

(** * Properties *)

Example check_micr0soft :
  checkSuspiciousDomain "https://www.micr0soft.com/login" =
  mkDomainCheck true (Some 90) (Some HIGH_RISK)
    (Some [ "⚠️ Domain 'micr0soft.com' impersonates Microsoft";
            "⚠️ Zero冒充 o (0 looks like o)";
            "⚠️ Site appears down but domain is suspicious" ]).
Proof. vm_compute. reflexivity. Qed.

(** ** Substring search *)

Section StringLemmas.

Lemma startsWith_app_l (p q s : string) :
  Str.startsWith (p +:+ q) s = true -> Str.startsWith p s = true.
Proof.
  revert s. induction p as [|a p IH]; intros s H; [reflexivity|].
  destruct s as [|b s]; simpl in *; [discriminate|].
  destruct (Ascii.eqb a b); [auto | discriminate].
Qed.

(** A text that includes [p ++ q] includes [p]. *)
Lemma includes_app_l (p q s : string) :
  Str.includes (p +:+ q) s = true -> Str.includes p s = true.
Proof.
  induction s as [|b s IH]; simpl; intros H.
  - rewrite orb_false_r in *. eauto using startsWith_app_l.
  - apply orb_true_iff in H as [H|H]; apply orb_true_iff.
    + left. eauto using startsWith_app_l.
    + right. auto.
Qed.

Lemma replaceAll_mapChars (c d : ascii) (s : string) :
  Str.replaceAll c d s = Str.mapChars (fun a => if Ascii.eqb a c then d else a) s.
Proof. induction s; simpl; congruence. Qed.

Lemma mapChars_compose (f g : ascii -> ascii) (s : string) :
  Str.mapChars f (Str.mapChars g s) = Str.mapChars (fun a => f (g a)) s.
Proof. induction s; simpl; congruence. Qed.

Lemma mapChars_ext (f g : ascii -> ascii) (s : string) :
  (forall a, f a = g a) -> Str.mapChars f s = Str.mapChars g s.
Proof. intros E. induction s; simpl; congruence. Qed.

Lemma mapChars_id_on (f : ascii -> ascii) (s : string) :
  (forall a, Str.isDigit a = false -> f a = a) ->
  Str.hasDigit s = false -> Str.mapChars f s = s.
Proof.
  intros E. induction s as [|a s IH]; simpl; [reflexivity|].
  intros H. apply orb_false_iff in H as [Ha Hs]. rewrite E, IH; auto.
Qed.

End StringLemmas.

Lemma digitToLetter_chain (a : ascii) :
  (let r c d x := if Ascii.eqb x c then d else x in
   r "7" "t" (r "5" "s" (r "4" "a" (r "3" "e" (r "1" "l" (r "0" "o" a))))))%char
  = digitToLetter a.
Proof.
  destruct a as [[] [] [] [] [] [] [] []]; reflexivity.
Qed.

Lemma digitToLetter_nondigit (a : ascii) :
  Str.isDigit a = false -> digitToLetter a = a.
Proof.
  destruct a as [[] [] [] [] [] [] [] []]; simpl; intros H;
    first [reflexivity | discriminate H].
Qed.

(** The six replacements in sequence are the simultaneous character map. *)
Lemma normalizeDigits_mapChars (domain : string) :
  normalizeDigits domain = Str.mapChars digitToLetter domain.
Proof.
  unfold normalizeDigits.
  rewrite !replaceAll_mapChars, !mapChars_compose.
  apply mapChars_ext. intros a. apply digitToLetter_chain.
Qed.

Lemma normalizeDigits_no_digit (domain : string) :
  Str.hasDigit domain = false -> normalizeDigits domain = domain.
Proof.
  intros H. rewrite normalizeDigits_mapChars.
  apply mapChars_id_on; auto using digitToLetter_nondigit.
Qed.

(** ** The heuristic *)

(** The result text aside, [checkSuspiciousDomain] is decided by
    [verdict]. *)
Lemma checkSuspiciousDomain_verdict (url : string) :
  suspicious (checkSuspiciousDomain url) =
  match verdict (extractDomain url) with
  | ByPattern item => negb (score item =? 0)
  | BySubstitution _ => true
  | Clean => false
  end.
Proof.
  unfold checkSuspiciousDomain, verdict.
  destruct (matchPattern _) as [item|].
  - destruct (score item =? 0); reflexivity.
  - destruct (Str.hasDigit _); [|reflexivity].
    destruct (matchBrand _ _); reflexivity.
Qed.

(** Every table entry either is a score-0 entry or scores at least 70. *)
Lemma table_scores (item : PatternEntry) :
  In item suspiciousPatterns -> score item = 0 \/ 70 <= score item.
Proof.
  unfold suspiciousPatterns. simpl.
  intros H. repeat (destruct H as [<-|H]; [simpl; lia|]). destruct H.
Qed.

Lemma matchPattern_In (domain : string) (item : PatternEntry) :
  matchPattern domain = Some item ->
  In item suspiciousPatterns /\ Str.includes (pattern item) domain = true.
Proof. intros H. apply find_some in H. exact H. Qed.

(** [find] skips an element that comes after a matching one. *)
Lemma find_before {A} (f : A -> bool) (l1 l2 : list A) (x y z : A) :
  f x = true -> List.find f (l1 ++ x :: y :: l2)%list = Some z ->
  In z (l1 ++ [x])%list.
Proof.
  intros Hx. induction l1 as [|a l1 IH]; simpl.
  - rewrite Hx. intros [= <-]. auto.
  - destruct (f a); [intros [= <-]; auto | auto].
Qed.

Lemma table_around_chase :
  suspiciousPatterns =
  (firstn 23 suspiciousPatterns ++ chaseEntry :: chaseBankEntry :: skipn 25 suspiciousPatterns)%list.
Proof. reflexivity. Qed.

(** The loop never stops at the [chase-bank] entry. *)
Lemma matchPattern_not_chase_bank (domain : string) (item : PatternEntry) :
  matchPattern domain = Some item -> pattern item <> "chase-bank".
Proof.
  intros H Hp.
  destruct (matchPattern_In _ _ H) as [_ Hinc].
  rewrite Hp in Hinc.
  apply (includes_app_l "chase" "-bank") in Hinc.
  unfold matchPattern in H. rewrite table_around_chase in H.
  apply find_before in H; [|exact Hinc].
  simpl in H.
  repeat (destruct H as [<-|H]; [discriminate Hp|]). destruct H.
Qed.

Lemma chase_entries (item : PatternEntry) :
  In item suspiciousPatterns -> brand item = "Chase" ->
  item = chaseEntry \/ item = chaseBankEntry.
Proof.
  unfold suspiciousPatterns. simpl. intros H Hb.
  repeat (destruct H as [<-|H]; [first [discriminate Hb | auto]|]). destruct H.
Qed.

Lemma matchBrand_In (domain normalized b : string) :
  matchBrand domain normalized = Some b ->
  In b brands /\ Str.includes b normalized = true /\ Str.includes b domain = false.
Proof.
  intros H. apply find_some in H as [Hin H].
  apply andb_true_iff in H as [H1 H2]. apply negb_true_iff in H2. auto.
Qed.

Lemma brands_not_chase (b : string) : In b brands -> b <> "chase" /\ b <> "Chase".
Proof.
  unfold brands. simpl. intros H.
  repeat (destruct H as [<-|H]; [split; discriminate|]). destruct H.
Qed.

(** C10.  For every URL the heuristic never reports the Chase brand: the
    loop never stops at the [chase-bank] entry (a domain that includes
    [chase-bank] includes [chase], whose score-0 entry comes first), a
    match on a Chase entry is the score-0 entry and answers
    [{ suspicious: false }], the substitution pass does not know the
    brand, and hence the finding of every suspicious answer names a brand
    other than Chase. *)
Theorem C10_chase_never_reported (url : string) :
  let domain := extractDomain url in
  (Str.includes "chase-bank" domain = true -> Str.includes "chase" domain = true) /\
  (forall item, matchPattern domain = Some item -> item <> chaseBankEntry) /\
  (forall item, verdict domain = ByPattern item -> brand item = "Chase" ->
     item = chaseEntry /\ checkSuspiciousDomain url = notSuspicious) /\
  (forall b, verdict domain = BySubstitution b -> b <> "chase" /\ b <> "Chase") /\
  (suspicious (checkSuspiciousDomain url) = true ->
     (exists item rest, In item suspiciousPatterns /\ brand item <> "Chase" /\
        dc_findings (checkSuspiciousDomain url) =
          Some (("⚠️ Domain '" +:+ domain +:+ "' impersonates " +:+ brand item) :: rest)) \/
     (exists b rest, In b brands /\ b <> "chase" /\ b <> "Chase" /\
        dc_findings (checkSuspiciousDomain url) =
          Some (("⚠️ Domain '" +:+ domain +:+ "' uses number substitution to mimic '"
                 +:+ b +:+ "'") :: rest))).
Proof.
  intros domain.
  assert (Hnb : forall item, matchPattern domain = Some item -> item <> chaseBankEntry).
  { intros item H ->. exact (matchPattern_not_chase_bank _ _ H eq_refl). }
  assert (Hchase : forall item, matchPattern domain = Some item ->
                     brand item = "Chase" -> item = chaseEntry).
  { intros item H Hb. destruct (matchPattern_In _ _ H) as [Hin _].
    destruct (chase_entries _ Hin Hb) as [E|E]; [exact E|].
    destruct (Hnb _ H E). }
  repeat split.
  - apply (includes_app_l "chase" "-bank").
  - exact Hnb.
  - unfold verdict in H. destruct (matchPattern domain) as [it|] eqn:Hm.
    + injection H as ->. auto.
    + destruct (Str.hasDigit domain); [destruct (matchBrand _ _)|]; discriminate.
  - unfold verdict in H. unfold checkSuspiciousDomain. fold domain.
    destruct (matchPattern domain) as [it|] eqn:Hm.
    + injection H as ->. rewrite (Hchase _ eq_refl H0). reflexivity.
    + destruct (Str.hasDigit domain); [destruct (matchBrand _ _)|]; discriminate.
  - unfold verdict in H. destruct (matchPattern domain); [discriminate|].
    destruct (Str.hasDigit domain); [|discriminate].
    destruct (matchBrand _ _) as [b'|] eqn:Hb; [|discriminate].
    injection H as ->. apply matchBrand_In in Hb as [Hin _].
    apply (brands_not_chase _ Hin).
  - unfold verdict in H. destruct (matchPattern domain); [discriminate|].
    destruct (Str.hasDigit domain); [|discriminate].
    destruct (matchBrand _ _) as [b'|] eqn:Hb; [|discriminate].
    injection H as ->. apply matchBrand_In in Hb as [Hin _].
    apply (brands_not_chase _ Hin).
  - unfold checkSuspiciousDomain. fold domain.
    destruct (matchPattern domain) as [it|] eqn:Hm.
    + destruct (score it =? 0) eqn:Hs; [discriminate|]. intros _. left.
      exists it. eexists. split; [apply (matchPattern_In _ _ Hm)|].
      split; [|reflexivity].
      intros Hb. rewrite (Hchase _ eq_refl Hb) in Hs. discriminate Hs.
    + destruct (Str.hasDigit domain); [|discriminate].
      destruct (matchBrand _ _) as [b|] eqn:Hb; [|discriminate].
      intros _. right. exists b. eexists.
      apply matchBrand_In in Hb as [Hin _].
      destruct (brands_not_chase _ Hin). auto.
Qed.

(** A hyphenated Chase look-alike is matched by the score-0 entry. *)
Lemma C10_chase_never_reported_witness :
  checkSuspiciousDomain "https://secure-chase-bank.com/login" = notSuspicious.
Proof.
  destruct (C10_chase_never_reported "https://secure-chase-bank.com/login")
    as (_ & _ & H & _).
  apply (H chaseEntry); [vm_compute|]; reflexivity.
Defined.

(** C3.  The heuristic is a function of the URL text alone, with these
    values: [micr0soft.com] is suspicious with score 90 for Microsoft;
    [paypal.com] is not suspicious, by the score-0 entry for its
    legitimate spelling; [g00gle-support.net] is suspicious by a table
    entry, so the substitution pass is not reached;
    [rnicrosoft-login.com] is suspicious with a score of at least 90 by
    the rn-for-m entry. *)
Theorem C3_heuristic_values :
  (checkSuspiciousDomain "micr0soft.com" =
     mkDomainCheck true (Some 90) (Some HIGH_RISK)
       (Some [ "⚠️ Domain 'micr0soft.com' impersonates Microsoft";
               "⚠️ Zero冒充 o (0 looks like o)";
               "⚠️ Site appears down but domain is suspicious" ]) /\
   verdict (extractDomain "micr0soft.com") =
     ByPattern (mkPattern "micr0soft" 90 "Microsoft" "Zero冒充 o (0 looks like o)")) /\
  (checkSuspiciousDomain "paypal.com" = notSuspicious /\
   verdict (extractDomain "paypal.com") =
     ByPattern (mkPattern "paypal" 0 "PayPal" "Legitimate")) /\
  (suspicious (checkSuspiciousDomain "g00gle-support.net") = true /\
   verdict (extractDomain "g00gle-support.net") =
     ByPattern (mkPattern "g00gle" 95 "Google" "Zeros冒充 oo (00 looks like oo)")) /\
  (suspicious (checkSuspiciousDomain "rnicrosoft-login.com") = true /\
   (exists sc, dc_score (checkSuspiciousDomain "rnicrosoft-login.com") = Some sc /\ 90 <= sc) /\
   verdict (extractDomain "rnicrosoft-login.com") =
     ByPattern (mkPattern "rnicrosoft" 95 "Microsoft" "rn冒充 m (rn looks like m)")).
Proof.
  repeat match goal with |- _ /\ _ => split end; try (vm_compute; reflexivity).
  exists 95. split; [vm_compute; reflexivity | lia].
Qed.

(** C4.  The substitution pass decides the answer only when no table
    pattern matched and the domain has a digit; the normalized text is the
    domain under the map 0 to o, 1 to l, 3 to e, 4 to a, 5 to s, 7 to t;
    with no table match the answer is suspicious exactly when the
    normalized text includes a tracked brand that the raw domain does not
    include; every such answer has score 85 and the HIGH risk level. *)
Theorem C4_substitution_pass (url : string) :
  let domain := extractDomain url in
  normalizeDigits domain = Str.mapChars digitToLetter domain /\
  (forall b, verdict domain = BySubstitution b ->
     matchPattern domain = None /\ Str.hasDigit domain = true) /\
  (matchPattern domain = None ->
     (suspicious (checkSuspiciousDomain url) = true <->
      Str.hasDigit domain = true /\
      exists b, In b brands /\
        Str.includes b (normalizeDigits domain) = true /\
        Str.includes b domain = false)) /\
  (matchPattern domain = None ->
     suspicious (checkSuspiciousDomain url) = true ->
     dc_score (checkSuspiciousDomain url) = Some 85 /\
     dc_risk_level (checkSuspiciousDomain url) = Some HIGH_RISK).
Proof.
  intros domain. split; [apply normalizeDigits_mapChars|]. split; [|split].
  - intros b H. unfold verdict in H.
    destruct (matchPattern domain); [discriminate|].
    destruct (Str.hasDigit domain); [auto | discriminate].
  - intros Hm. unfold checkSuspiciousDomain. fold domain. rewrite Hm.
    destruct (Str.hasDigit domain) eqn:Hd.
    + destruct (matchBrand domain (normalizeDigits domain)) as [b|] eqn:Hb; simpl.
      * split; [|reflexivity]. intros _. split; [reflexivity|].
        exists b. apply (matchBrand_In _ _ _ Hb).
      * split; [discriminate|]. intros [_ [b (Hin & H1 & H2)]].
        unfold matchBrand in Hb.
        apply (find_none _ _ Hb) in Hin. rewrite H1, H2 in Hin. discriminate Hin.
    + simpl. split; [discriminate|]. intros [H _]. discriminate H.
  - intros Hm. unfold checkSuspiciousDomain. fold domain. rewrite Hm.
    destruct (Str.hasDigit domain); [|discriminate].
    destruct (matchBrand _ _); [auto | discriminate].
Qed.

(** The pass at work on a domain outside the table. *)
Lemma C4_substitution_pass_witness :
  matchPattern (extractDomain "https://secure-netf1ix.com/account") = None /\
  suspicious (checkSuspiciousDomain "https://secure-netf1ix.com/account") = true /\
  dc_score (checkSuspiciousDomain "https://secure-netf1ix.com/account") = Some 85 /\
  dc_risk_level (checkSuspiciousDomain "https://secure-netf1ix.com/account") = Some HIGH_RISK.
Proof.
  assert (Hm : matchPattern (extractDomain "https://secure-netf1ix.com/account") = None)
    by (vm_compute; reflexivity).
  assert (Hs : suspicious (checkSuspiciousDomain "https://secure-netf1ix.com/account") = true)
    by (vm_compute; reflexivity).
  destruct (C4_substitution_pass "https://secure-netf1ix.com/account") as (_ & _ & _ & H).
  split; [exact Hm|]. split; [exact Hs|]. exact (H Hm Hs).
Defined.

(** Decide a three-band goal by the two threshold tests. *)
Ltac bands s :=
  let E := fresh "E" in
  destruct (70 <=? s) eqn:?; [|destruct (40 <=? s) eqn:?];
  (split; intros E);
  first [discriminate E | reflexivity | lia].

(** C1.  For every integer score the icon chosen by [updateIconForScore]
    is the danger icon exactly from 70 up, the warning icon exactly from 40
    to 69 and the safe icon exactly below 40, so 40 and 70 fall in the
    higher band; the popup's level label and the banner test use the same
    thresholds; and every result the heuristic classifies carries the HIGH
    risk level together with a score of at least 70, in agreement with the
    mapping. *)
Theorem C1_severity_thresholds (s : Z) :
  (iconPathForScore (Some s) = CONFIG.icons_danger <-> 70 <= s) /\
  (iconPathForScore (Some s) = CONFIG.icons_warning <-> 40 <= s < 70) /\
  (iconPathForScore (Some s) = CONFIG.icons_safe <-> s < 40) /\
  iconPathForScore (Some 40) = CONFIG.icons_warning /\
  iconPathForScore (Some 70) = CONFIG.icons_danger /\
  (riskLevelText (Some s) = "🔴 CRITICAL" <-> 70 <= s) /\
  (riskLevelText (Some s) = "🟡 MEDIUM" <-> 40 <= s < 70) /\
  (riskLevelText (Some s) = "✅ SAFE" <-> s < 40) /\
  (geq (Some s) 70 = true <-> 70 <= s) /\
  (forall url, suspicious (checkSuspiciousDomain url) = true ->
     exists sc, dc_score (checkSuspiciousDomain url) = Some sc /\ 70 <= sc /\
       dc_risk_level (checkSuspiciousDomain url) = Some HIGH_RISK /\
       iconPathForScore (Some sc) = CONFIG.icons_danger).
Proof.
  unfold iconPathForScore, riskLevelText, geq.
  repeat match goal with |- _ /\ _ => split end; try reflexivity.
  1-6: bands s.
  - split; lia.
  - intros url. unfold checkSuspiciousDomain.
    destruct (matchPattern _) as [item|] eqn:Hm.
    + destruct (score item =? 0) eqn:Hz; [discriminate|]. intros _.
      destruct (matchPattern_In _ _ Hm) as [Hin _].
      destruct (table_scores _ Hin) as [H0|H70]; [lia|].
      exists (score item). simpl.
      assert (E : (70 <=? score item) = true) by lia. rewrite E. auto.
    + destruct (Str.hasDigit _); [|discriminate].
      destruct (matchBrand _ _); [|discriminate].
      intros _. exists 85. simpl. repeat split; lia.
Qed.

(** Score 55 and the result for an impersonating domain. *)
Lemma C1_severity_thresholds_witness :
  iconPathForScore (Some 55) = CONFIG.icons_warning /\
  dc_risk_level (checkSuspiciousDomain "http://g00gle.com/") = Some HIGH_RISK.
Proof.
  destruct (C1_severity_thresholds 55) as (_ & [_ Hw] & _ & _ & _ & _ & _ & _ & _ & Hh).
  split; [apply Hw; lia|].
  destruct (Hh "http://g00gle.com/" ltac:(vm_compute; reflexivity)) as (sc & _ & _ & Hr & _).
  exact Hr.
Defined.

(** ** Storage keys *)

Lemma scanKeyTab_inj (a b : Z) : scanKeyTab a = scanKeyTab b -> a = b.
Proof.
  unfold scanKeyTab. simpl. intros [= H]. exact (inj pretty _ _ H).
Qed.

Lemma scanKeyUrl_tab (url : string) (tabId : Z) :
  scanKeyUrl url = scanKeyTab tabId -> url = pretty tabId.
Proof. unfold scanKeyUrl, scanKeyTab. simpl. intros [= H]. exact H. Qed.

Lemma lastScan_not_tab (tabId : Z) : "lastScan" <> scanKeyTab tabId.
Proof. unfold scanKeyTab. simpl. discriminate. Qed.

Lemma lastScan_not_url (url : string) : "lastScan" <> scanKeyUrl url.
Proof. unfold scanKeyUrl. simpl. discriminate. Qed.

Lemma settings_not_tab (tabId : Z) : "settings" <> scanKeyTab tabId.
Proof. unfold scanKeyTab. simpl. discriminate. Qed.

Lemma settings_not_url (url : string) : "settings" <> scanKeyUrl url.
Proof. unfold scanKeyUrl. simpl. discriminate. Qed.

(** The decimal text of a tab id has no colon, whereas a URL has one after
    its scheme; so the mirror key of a URL is never the key of a tab. *)
Lemma includes_colon_cons (a : ascii) (s : string) :
  Str.includes ":" (String a s) = Ascii.eqb ":" a || Str.includes ":" s.
Proof.
  cbn [Str.includes Str.startsWith].
  destruct (Ascii.eqb ":" a); [destruct s|]; reflexivity.
Qed.

Lemma pretty_N_go_no_colon (x : N) (s : string) :
  Str.includes ":" s = false -> Str.includes ":" (pretty_N_go x s) = false.
Proof.
  revert s. induction (N.lt_wf_0 x) as [x _ IH]. intros s Hs.
  destruct (decide (x = 0%N)) as [->|Hx].
  - rewrite pretty_N_go_0. exact Hs.
  - rewrite pretty_N_go_step by lia. apply IH.
    + apply N.div_lt; lia.
    + rewrite includes_colon_cons, Hs.
      unfold pretty_N_char. repeat case_match; reflexivity.
Qed.

Lemma pretty_N_no_colon (x : N) : Str.includes ":" (pretty x) = false.
Proof.
  unfold pretty, pretty_N. case_decide; [reflexivity|].
  apply pretty_N_go_no_colon. reflexivity.
Qed.

Lemma pretty_Z_no_colon (z : Z) : Str.includes ":" (pretty z) = false.
Proof.
  destruct z as [|p|p]; unfold pretty, pretty_Z.
  - reflexivity.
  - apply pretty_N_no_colon.
  - change ("-" +:+ pretty p) with (String "-" (pretty p)).
    rewrite includes_colon_cons. apply pretty_N_no_colon.
Qed.

Lemma url_key_not_tab_key (url : string) (tabId : Z) :
  Str.includes ":" url = true -> scanKeyUrl url <> scanKeyTab tabId.
Proof.
  intros Hc E. apply scanKeyUrl_tab in E. subst url.
  rewrite pretty_Z_no_colon in Hc. discriminate Hc.
Qed.

(** ** Result store *)

(** C9.  [clearTabCache] removes the per-tab entry and nothing else: every
    other storage key keeps its value, in particular the mirror entry of
    every URL (a URL has a scheme, so its key is not the tab's), the
    last-scan pointer, the stored settings and the entries of all other
    tabs; the in-memory settings with the scan history are untouched. *)
Theorem C9_clearTabCache_frame (tabId : Z) (st : State) :
  let st' := clearTabCache tabId st in
  storage st' !! scanKeyTab tabId = None /\
  (forall k, k <> scanKeyTab tabId -> storage st' !! k = storage st !! k) /\
  (forall url, url <> pretty tabId ->
     storage st' !! scanKeyUrl url = storage st !! scanKeyUrl url) /\
  (forall url, Str.includes ":" url = true ->
     storage st' !! scanKeyUrl url = storage st !! scanKeyUrl url) /\
  storage st' !! "lastScan" = storage st !! "lastScan" /\
  storage st' !! "settings" = storage st !! "settings" /\
  settings st' = settings st /\
  scanHistory (settings st') = scanHistory (settings st) /\
  (forall other, other <> tabId ->
     storage st' !! scanKeyTab other = storage st !! scanKeyTab other) /\
  effects st' = effects st.
Proof.
  simpl.
  assert (F : forall k, k <> scanKeyTab tabId ->
                delete (scanKeyTab tabId) (storage st) !! k = storage st !! k).
  { intros k Hk. apply lookup_delete_ne. congruence. }
  repeat match goal with |- _ /\ _ => split end; try reflexivity.
  - apply lookup_delete_eq.
  - exact F.
  - intros url Hu. apply F. intros E. apply Hu, scanKeyUrl_tab, E.
  - intros url Hu. apply F, url_key_not_tab_key, Hu.
  - apply F, lastScan_not_tab.
  - apply F, settings_not_tab.
  - intros other Ho. apply F. intros E. apply Ho, scanKeyTab_inj, E.
Qed.

(** A stored mirror entry of a URL survives the invalidation of its tab. *)
Lemma C9_clearTabCache_frame_witness :
  let st := mkState (<[scanKeyUrl "https://example.com/" := VResult (mkResult (Some 10) None None)]>
                       (<[scanKeyTab 7 := VResult (mkResult (Some 10) None None)]> ∅))
              initialSettings [] in
  storage (clearTabCache 7 st) !! scanKeyUrl "https://example.com/" =
  storage st !! scanKeyUrl "https://example.com/".
Proof.
  intros st.
  destruct (C9_clearTabCache_frame 7 st) as (_ & _ & _ & H & _).
  apply H. vm_compute. reflexivity.
Defined.

Section Store.

Variables (tabId : Z) (url : string) (result : ScanResult) (storedAt loggedAt : Z).
Variable st : State.

Let st1 := storeScanResult tabId url result storedAt loggedAt st.

Lemma store_tab_entry : storage st1 !! scanKeyTab tabId = Some (VResult result).
Proof.
  subst st1. unfold storeScanResult.
  destruct (res_score result); simpl;
    rewrite ?(lookup_insert_ne _ "settings") by (apply settings_not_tab);
    rewrite (lookup_insert_ne _ "lastScan") by (apply lastScan_not_tab);
    rewrite lookup_insert; case_decide;
    first [reflexivity | apply lookup_insert_eq].
Qed.

Lemma store_url_entry : storage st1 !! scanKeyUrl url = Some (VResult result).
Proof.
  subst st1. unfold storeScanResult.
  destruct (res_score result); simpl;
    rewrite ?(lookup_insert_ne _ "settings") by (apply settings_not_url);
    rewrite (lookup_insert_ne _ "lastScan") by (apply lastScan_not_url);
    apply lookup_insert_eq.
Qed.

Lemma store_lastScan :
  storage st1 !! "lastScan" = Some (VLastScan (mkLastScan tabId url result storedAt)).
Proof.
  subst st1. unfold storeScanResult.
  destruct (res_score result); simpl;
    rewrite ?(lookup_insert_ne _ "settings") by (discriminate);
    apply lookup_insert_eq.
Qed.

Lemma store_effects : effects st1 = effects st.
Proof. subst st1. unfold storeScanResult. destruct (res_score result); reflexivity. Qed.

Lemma store_flags :
  autoScan (settings st1) = autoScan (settings st) /\
  showWarnings (settings st1) = showWarnings (settings st).
Proof. subst st1. unfold storeScanResult. destruct (res_score result); auto. Qed.

End Store.

Lemma store_history (tabId : Z) (url : string) (result : ScanResult)
    (storedAt loggedAt : Z) (st : State) :
  scanHistory (settings (storeScanResult tabId url result storedAt loggedAt st)) =
  match res_score result with
  | Some s => unshiftCapped (mkEntry url s (res_risk_level result) loggedAt)
                (scanHistory (settings st))
  | None => scanHistory (settings st)
  end.
Proof. unfold storeScanResult. destruct (res_score result); reflexivity. Qed.

(** Below the cap the new entry is simply put in front; at the cap the
    tail entry makes room for it. *)
Lemma unshiftCapped_take (e : HistoryEntry) (h : list HistoryEntry) :
  (length h <= 20)%nat -> unshiftCapped e h = take 20 (e :: h).
Proof.
  intros Hlen. unfold unshiftCapped.
  destruct (20 <? Z.of_nat (length (e :: h))) eqn:Hc.
  - apply Z.ltb_lt in Hc. rewrite removelast_firstn_len.
    replace (Nat.pred (length (e :: h))) with 20%nat
      by (cbn [length] in *; lia).
    reflexivity.
  - apply Z.ltb_ge in Hc. symmetry. apply take_ge. cbn [length] in *. lia.
Qed.

Lemma unshiftCapped_length (e : HistoryEntry) (h : list HistoryEntry) :
  (length h <= 20)%nat -> (length (unshiftCapped e h) <= 20)%nat.
Proof.
  intros Hlen. rewrite unshiftCapped_take by exact Hlen.
  rewrite length_take. lia.
Qed.

Lemma take_app_take {A} (n : nat) (a b : list A) :
  take n (a ++ take n b) = take n (a ++ b).
Proof.
  rewrite !take_app. f_equal. rewrite take_take. f_equal. lia.
Qed.

Lemma applyWrite_history (st : State) (w : Write) :
  (length (historyOf st) <= 20)%nat ->
  historyOf (applyWrite st w) = take 20 (option_list (entryOf w) ++ historyOf st) /\
  (length (historyOf (applyWrite st w)) <= 20)%nat.
Proof.
  intros Hlen. unfold historyOf, applyWrite, entryOf in *.
  rewrite store_history. destruct (res_score (w_result w)); simpl.
  - split; [apply unshiftCapped_take | apply unshiftCapped_length]; exact Hlen.
  - split; [symmetry; apply take_ge|]; exact Hlen.
Qed.

(** The history after a run of writes: the entries of the run, newest
    first, in front of the old history, cut at 20. *)
Lemma applyWrites_history (ws : list Write) (st : State) :
  (length (historyOf st) <= 20)%nat ->
  historyOf (applyWrites ws st) = take 20 (reverse (omap entryOf ws) ++ historyOf st).
Proof.
  revert st. induction ws as [|w ws IH]; intros st Hlen.
  - simpl. symmetry. apply take_ge. exact Hlen.
  - destruct (applyWrite_history st w Hlen) as [Hw Hlen'].
    change (applyWrites (w :: ws) st) with (applyWrites ws (applyWrite st w)).
    rewrite IH by exact Hlen'. rewrite Hw, take_app_take.
    f_equal. rewrite app_assoc. f_equal.
    simpl. unfold entryOf. destruct (res_score (w_result w)); simpl.
    + rewrite reverse_cons. reflexivity.
    + rewrite app_nil_r. reflexivity.
Qed.

Lemma omap_lookup_defined {A B} (f : A -> option B) (l : list A) (i : nat) :
  Forall (fun a => is_Some (f a)) l -> omap f l !! i = l !! i ≫= f.
Proof.
  intros H. revert i. induction H as [|a l [b Hb] _ IH]; intros i.
  - reflexivity.
  - simpl. rewrite Hb. destruct i as [|i]; simpl; [exact (eq_sym Hb) | apply IH].
Qed.

Lemma omap_length_defined {A B} (f : A -> option B) (l : list A) :
  Forall (fun a => is_Some (f a)) l -> length (omap f l) = length l.
Proof.
  induction 1 as [|a l [b Hb] _ IH]; simpl; [reflexivity|].
  rewrite Hb. simpl. f_equal. exact IH.
Qed.

(** C5.  Starting from an empty history, after more than 20 writes whose
    results all have a score the history has exactly 20 entries: those of
    the 20 latest writes, the latest first.  Any single write with a score
    puts its entry in front and drops the tail entry when the length has
    passed 20; a write without a score leaves the history alone. *)
Theorem C5_history_bound (st : State) (ws : list Write)
    (Hempty : historyOf st = [])
    (Hscores : Forall (fun w => is_Some (res_score (w_result w))) ws)
    (Hmany : (20 < length ws)%nat) :
  let h := historyOf (applyWrites ws st) in
  length h = 20%nat /\
  h = take 20 (reverse (omap entryOf ws)) /\
  (forall i, (i < 20)%nat -> h !! i = (ws !! (length ws - 1 - i)%nat ≫= entryOf)) /\
  (forall st0 w s, res_score (w_result w) = Some s ->
     let e := mkEntry (w_url w) s (res_risk_level (w_result w)) (w_loggedAt w) in
     historyOf (applyWrite st0 w) =
       (if 20 <? Z.of_nat (length (e :: historyOf st0))
        then removelast (e :: historyOf st0) else e :: historyOf st0)) /\
  (forall st0 w, res_score (w_result w) = None ->
     historyOf (applyWrite st0 w) = historyOf st0).
Proof.
  intros h.
  assert (Hdef : Forall (fun w => is_Some (entryOf w)) ws).
  { eapply Forall_impl; [exact Hscores|]. intros w [s Hs].
    unfold entryOf. rewrite Hs. eauto. }
  assert (Hh : h = take 20 (reverse (omap entryOf ws))).
  { subst h. rewrite applyWrites_history by (rewrite Hempty; simpl; lia).
    rewrite Hempty, app_nil_r. reflexivity. }
  pose proof (omap_length_defined _ _ Hdef) as Hlen.
  repeat match goal with |- _ /\ _ => split end.
  - rewrite Hh, length_take, length_reverse, Hlen. lia.
  - exact Hh.
  - intros i Hi. rewrite Hh, lookup_take_lt by exact Hi.
    rewrite reverse_lookup by lia.
    rewrite Hlen, omap_lookup_defined by exact Hdef.
    f_equal. f_equal. lia.
  - intros st0 w s Hs. unfold historyOf, applyWrite.
    rewrite store_history, Hs. reflexivity.
  - intros st0 w Hs. unfold historyOf, applyWrite.
    rewrite store_history, Hs. reflexivity.
Qed.

Lemma C5_history_bound_witness :
  length (historyOf (applyWrites (map sampleWrite (seq 0 21)) emptyState)) = 20%nat.
Proof.
  apply (C5_history_bound emptyState (map sampleWrite (seq 0 21))).
  - reflexivity.
  - simpl. repeat constructor; eexists; reflexivity.
  - simpl. lia.
Defined.

(** C8, as stated, fails: the last-scan pointer records the time of the
    write, so a second identical write at a later time changes it. *)
Lemma C8_counterexample :
  let result := mkResult (Some 50) (Some MEDIUM_RISK) None in
  let st1 := storeScanResult 1 "https://example.com/" result 1000 1000 emptyState in
  let st2 := storeScanResult 1 "https://example.com/" result 2000 2000 st1 in
  ~ (storage st2 !! scanKeyTab 1 = storage st1 !! scanKeyTab 1 /\
     storage st2 !! scanKeyUrl "https://example.com/" =
       storage st1 !! scanKeyUrl "https://example.com/" /\
     storage st2 !! "lastScan" = storage st1 !! "lastScan" /\
     length (historyOf st2) = S (length (historyOf st1))).
Proof.
  intros result st1 st2 (_ & _ & H & _).
  subst st1 st2. rewrite !store_lastScan in H. discriminate H.
Qed.

(** C8, amended.  A second write with the same tab, URL and result leaves
    the per-tab entry and the mirror entry unchanged; the last-scan pointer
    keeps its tab, URL and result and takes the time of the second write,
    so it is unchanged when both writes read the same time.  If the result
    has a score the second write puts one more entry in front of the
    history (dropping the tail entry at the cap of 20), so two writes add
    two entries; without a score the history stays as it is. *)
Theorem C8_repeated_write (st : State) (tabId : Z) (url : string) (result : ScanResult)
    (t1 t1' t2 t2' : Z) :
  let st1 := storeScanResult tabId url result t1 t1' st in
  let st2 := storeScanResult tabId url result t2 t2' st1 in
  storage st2 !! scanKeyTab tabId = storage st1 !! scanKeyTab tabId /\
  storage st2 !! scanKeyUrl url = storage st1 !! scanKeyUrl url /\
  storage st1 !! "lastScan" = Some (VLastScan (mkLastScan tabId url result t1)) /\
  storage st2 !! "lastScan" = Some (VLastScan (mkLastScan tabId url result t2)) /\
  (t1 = t2 -> storage st2 !! "lastScan" = storage st1 !! "lastScan") /\
  (forall s, res_score result = Some s ->
     let e t := mkEntry url s (res_risk_level result) t in
     historyOf st2 = unshiftCapped (e t2') (historyOf st1) /\
     ((length (historyOf st1) < 20)%nat -> historyOf st2 = e t2' :: historyOf st1) /\
     ((length (historyOf st) + 2 <= 20)%nat ->
        historyOf st2 = e t2' :: e t1' :: historyOf st) /\
     (length (historyOf st1) = 20%nat ->
        historyOf st2 = e t2' :: removelast (historyOf st1))) /\
  (res_score result = None -> historyOf st2 = historyOf st1).
Proof.
  intros st1 st2. subst st1 st2.
  rewrite !store_tab_entry, !store_url_entry, !store_lastScan.
  do 5 (split; [first [reflexivity | intros ->; reflexivity]|]).
  split.
  - intros s H e. subst e. unfold historyOf. rewrite !store_history, H.
    set (h := scanHistory (settings st)).
    set (e1 := mkEntry url s (res_risk_level result) t1').
    set (e2 := mkEntry url s (res_risk_level result) t2').
    repeat match goal with |- _ /\ _ => split end.
    + reflexivity.
    + intros Hlt. unfold unshiftCapped at 1.
      replace (20 <? _) with false; [reflexivity|].
      symmetry. apply Z.ltb_ge. cbn [length]. lia.
    + intros Hle. rewrite (unshiftCapped_take e1 h) by lia.
      rewrite (take_ge (e1 :: h)) by (simpl; lia).
      rewrite unshiftCapped_take by (simpl; lia). apply take_ge. simpl. lia.
    + intros Hfull. unfold unshiftCapped at 1.
      replace (20 <? _) with true
        by (symmetry; apply Z.ltb_lt; cbn [length]; lia).
      destruct (unshiftCapped e1 h); [discriminate Hfull | reflexivity].
  - intros Hn. unfold historyOf. rewrite store_history, Hn. reflexivity.
Qed.

(** Two writes at the same time, with a score, into an empty history. *)
Lemma C8_repeated_write_witness :
  let result := mkResult (Some 50) (Some MEDIUM_RISK) None in
  let st1 := storeScanResult 1 "https://example.com/" result 1000 1001 emptyState in
  let st2 := storeScanResult 1 "https://example.com/" result 1000 1002 st1 in
  storage st2 !! "lastScan" = storage st1 !! "lastScan" /\
  historyOf st2 =
    [ mkEntry "https://example.com/" 50 (Some MEDIUM_RISK) 1002;
      mkEntry "https://example.com/" 50 (Some MEDIUM_RISK) 1001 ].
Proof.
  intros result st1 st2.
  destruct (C8_repeated_write emptyState 1 "https://example.com/" result 1000 1001 1000 1002)
    as (_ & _ & _ & _ & Hsame & Hhist & _).
  split; [exact (Hsame eq_refl)|].
  destruct (Hhist 50 eq_refl) as (_ & _ & Htwo & _).
  apply Htwo. simpl. lia.
Defined.

(** ** Freshness *)

Lemma freshScan_spec (tabId now : Z) (st : State) (scan : StoreValue) :
  freshScan tabId now st = Some scan <->
  readScan tabId st = Some scan /\
  exists l, storage st !! "lastScan" = Some (VLastScan l) /\
            ls_tabId l = tabId /\ now - ls_timestamp l < 30000.
Proof.
  unfold freshScan. split.
  - destruct (readScan tabId st) as [v|]; [|discriminate].
    destruct (storage st !! "lastScan") as [[r|l|s]|]; try discriminate.
    case_decide; [|discriminate].
    destruct (now - ls_timestamp l <? 30000) eqn:Ht; [|discriminate].
    intros [= <-]. split; [reflexivity|]. exists l. repeat split; auto. lia.
  - intros [-> (l & -> & Hl & Ht)].
    rewrite decide_True by exact Hl.
    replace (now - ls_timestamp l <? 30000) with true by lia. reflexivity.
Qed.

(** C6.  The [getCurrentScan] handler answers from the cache exactly when
    the tab has a per-tab entry, the last-scan pointer names the tab and
    less than 30 seconds have passed since the pointer's time; so what was
    written at time [T] for a tab is fresh at [T + 29 s] and stale at
    [T + 31 s] for that tab, and nothing is fresh for a tab other than the
    one the pointer names. *)
Theorem C6_freshness (st : State) (tabId now : Z) :
  (forall scan,
     freshScan tabId now st = Some scan <->
     readScan tabId st = Some scan /\
     exists l, storage st !! "lastScan" = Some (VLastScan l) /\
               ls_tabId l = tabId /\ now - ls_timestamp l < 30000) /\
  (forall tabUrl tabs progress scan,
     freshScan tabId now st = Some scan ->
     getCurrentScan (mkTab tabId tabUrl :: tabs) now progress st = (Some scan, st)) /\
  (forall url tabs progress,
     freshScan tabId now st = None -> url <> "" ->
     getCurrentScan (mkTab tabId (Some url) :: tabs) now progress st =
       let st' := match progress with
                  | StillFetching => scanUrl_pending url tabId st
                  | Finished env => scanUrl url tabId env st
                  end in
       (readScan tabId st', st')) /\
  (forall url result T T',
     let st1 := storeScanResult tabId url result T T' st in
     freshScan tabId (T + 29000) st1 = Some (VResult result) /\
     freshScan tabId (T + 31000) st1 = None) /\
  (forall l other t,
     storage st !! "lastScan" = Some (VLastScan l) -> other <> ls_tabId l ->
     freshScan other t st = None) /\
  (forall other url result T T' t, other <> tabId ->
     freshScan other t (storeScanResult tabId url result T T' st) = None).
Proof.
  split; [intros scan; apply freshScan_spec|].
  split; [|split; [|split; [|split]]].
  - intros tabUrl tabs progress scan H. simpl. rewrite H. reflexivity.
  - intros url tabs progress H Hurl. simpl. rewrite H.
    apply String.eqb_neq in Hurl. rewrite Hurl. reflexivity.
  - intros url result T T' st1. subst st1. unfold freshScan, readScan.
    rewrite store_tab_entry, store_lastScan. simpl.
    rewrite decide_True by reflexivity.
    replace (T + 29000 - T <? 30000) with true by lia.
    replace (T + 31000 - T <? 30000) with false by lia.
    split; [reflexivity | case_decide; reflexivity].
  - intros l other t Hl Hne. unfold freshScan. rewrite Hl.
    destruct (readScan other st); [|reflexivity].
    rewrite decide_False by congruence. reflexivity.
  - intros other url result T T' t Hne. unfold freshScan.
    rewrite store_lastScan. simpl.
    destruct (readScan other _); [|reflexivity].
    rewrite decide_False by congruence. reflexivity.
Qed.

(** A write at time 1000 for tab 4, queried for tab 4 and for tab 5. *)
Lemma C6_freshness_witness :
  let result := mkResult (Some 10) None None in
  let st1 := storeScanResult 4 "https://example.com/" result 1000 1000 emptyState in
  freshScan 4 30000 st1 = Some (VResult result) /\
  freshScan 4 32000 st1 = None /\
  freshScan 5 1000 st1 = None.
Proof.
  intros result st1.
  destruct (C6_freshness emptyState 4 0) as (_ & _ & _ & Hw & _ & Ho).
  destruct (Hw "https://example.com/" result 1000 1000) as [H29 H31].
  split; [exact H29|]. split; [exact H31|].
  apply Ho. discriminate.
Defined.

(** ** The scan procedure *)

Lemma settle_run (url : string) (tabId : Z) (result : ScanResult) (env : ScanEnv) (st : State) :
  settle url tabId result env st = (inr tt, settledState url tabId result env st).
Proof.
  unfold settle, settledState, mbind, task_bind, act, getSettings. simpl.
  destruct (geq (res_score result) 70 && _); reflexivity.
Qed.

(** The five ways through the [try] block. *)
Lemma scanUrl_try_run (url : string) (tabId : Z) (env : ScanEnv) (st : State) :
  scanUrl_try url tabId env st =
  let pending := scanUrl_pending url tabId st in
  match outcome env with
  | Rejected => (inl ApiNotReachable, pending)
  | Responded r =>
      if ok r then
        match body r with
        | Some result => (inr tt, settledState url tabId result env pending)
        | None => (inl BodyNotJson, pending)
        end
      else if suspicious (checkSuspiciousDomain url) then
        (inr tt, settledState url tabId
                   (deadSiteResult url (status r) (checkSuspiciousDomain url)) env pending)
      else (inl (ApiError (status r)), pending)
  end.
Proof.
  unfold scanUrl_try, mbind, task_bind, act, fetch, scanUrl_pending. simpl.
  destruct (outcome env) as [|r]; [reflexivity|].
  destruct (ok r); simpl.
  - unfold json, mbind, task_bind. destruct (body r); simpl.
    + apply settle_run.
    + reflexivity.
  - destruct (suspicious _); [apply settle_run | reflexivity].
Qed.

Lemma scanFails_iff (url : string) (tabId : Z) (env : ScanEnv) (st : State) :
  scanFails url env <-> exists e, fst (scanUrl_try url tabId env st) = inl e.
Proof.
  rewrite scanUrl_try_run. unfold scanFails. simpl. split.
  - intros [->|(r & -> & [[Hok Hs]|[Hok Hb]])]; [eauto|..]; rewrite Hok.
    + rewrite Hs. eauto.
    + rewrite Hb. eauto.
  - destruct (outcome env) as [|r]; [auto|]. intros [e He]. right. exists r.
    split; [reflexivity|]. destruct (ok r).
    + destruct (body r); [discriminate He | auto].
    + destruct (suspicious _); [discriminate He | auto].
Qed.

Lemma pending_storage (url : string) (tabId : Z) (st : State) :
  storage (scanUrl_pending url tabId st) = delete (scanKeyTab tabId) (storage st).
Proof. reflexivity. Qed.

Lemma settled_effects (url : string) (tabId : Z) (result : ScanResult) (env : ScanEnv) (st : State) :
  effects (settledState url tabId result env st) =
  (ScanComplete tabId result ::
   (if geq (res_score result) 70 && showWarnings (settings st)
    then [ShowWarning tabId (res_score result)] else []) ++
   SetIcon tabId (iconPathForScore (res_score result)) :: effects st)%list.
Proof.
  unfold settledState, updateIconForScore, safeSetIcon, showWarningSafely, emit. simpl.
  destruct (store_flags tabId url result (storedAt env) (loggedAt env) st) as [_ ->].
  destruct (geq (res_score result) 70 && _); simpl; rewrite store_effects; reflexivity.
Qed.

Lemma settled_storage (url : string) (tabId : Z) (result : ScanResult) (env : ScanEnv) (st : State) :
  storage (settledState url tabId result env st) =
  storage (storeScanResult tabId url result (storedAt env) (loggedAt env) st).
Proof.
  unfold settledState, updateIconForScore, safeSetIcon, showWarningSafely, emit. simpl.
  destruct (geq (res_score result) 70 && _); reflexivity.
Qed.

(** A suspicious answer always carries its findings. *)
Lemma suspicious_findings (url : string) :
  suspicious (checkSuspiciousDomain url) = true ->
  exists f, dc_findings (checkSuspiciousDomain url) = Some f.
Proof.
  unfold checkSuspiciousDomain.
  destruct (matchPattern _) as [item|].
  - destruct (score item =? 0); [discriminate | eauto].
  - destruct (Str.hasDigit _); [|discriminate].
    destruct (matchBrand _ _); [eauto | discriminate].
Qed.

(** C2.  When the service answers with a non-2xx status, the URL goes to
    the heuristic.  If the domain is suspicious the scan completes: its
    result carries the heuristic's score, risk level and findings, is
    stored under the tab, the URL and the last-scan pointer, sets the icon
    from the score, shows the banner when the score is at least 70 and
    warnings are on, and is announced to the popup.  If not, the scan fails
    with the error carrying the status, and the store only loses the tab's
    entry that was cleared at the start. *)
Theorem C2_dead_site_fallback (st : State) (url : string) (tabId : Z) (env : ScanEnv)
    (r : Response) (Hresp : outcome env = Responded r) (Hnok : ok r = false) :
  let dc := checkSuspiciousDomain url in
  let st' := scanUrl url tabId env st in
  (suspicious dc = true ->
     exists result,
       fst (scanUrl_try url tabId env st) = inr tt /\
       res_score result = dc_score dc /\
       res_risk_level result = dc_risk_level dc /\
       res_findings result = dc_findings dc /\
       storage st' !! scanKeyTab tabId = Some (VResult result) /\
       storage st' !! scanKeyUrl url = Some (VResult result) /\
       storage st' !! "lastScan" =
         Some (VLastScan (mkLastScan tabId url result (storedAt env))) /\
       iconOf tabId st' = Some (iconPathForScore (dc_score dc)) /\
       effects st' =
         (ScanComplete tabId result ::
          (if geq (dc_score dc) 70 && showWarnings (settings st)
           then [ShowWarning tabId (dc_score dc)] else []) ++
          SetIcon tabId (iconPathForScore (dc_score dc)) ::
          Fetch url :: SetIcon tabId CONFIG.icons_safe :: effects st)%list) /\
  (suspicious dc = false ->
     fst (scanUrl_try url tabId env st) = inl (ApiError (status r)) /\
     storage st' = delete (scanKeyTab tabId) (storage st) /\
     readScan tabId st' = None /\
     settings st' = settings st /\
     effects st' =
       SetIcon tabId CONFIG.icons_safe :: ConsoleError (ApiError (status r)) ::
       Fetch url :: SetIcon tabId CONFIG.icons_safe :: effects st).
Proof.
  intros dc st'. subst st'. unfold scanUrl, tryCatch.
  rewrite scanUrl_try_run, Hresp, Hnok. cbv zeta. fold dc. split; intros Hs; rewrite Hs.
  - destruct (suspicious_findings url Hs) as [f Hf]. fold dc in Hf.
    exists (deadSiteResult url (status r) dc).
    assert (Hfind : res_findings (deadSiteResult url (status r) dc) = dc_findings dc).
    { unfold deadSiteResult. rewrite Hf. reflexivity. }
    assert (Heff : effects (settledState url tabId (deadSiteResult url (status r) dc) env
                              (scanUrl_pending url tabId st)) =
                   (ScanComplete tabId (deadSiteResult url (status r) dc) ::
                    (if geq (dc_score dc) 70 && showWarnings (settings st)
                     then [ShowWarning tabId (dc_score dc)] else []) ++
                    SetIcon tabId (iconPathForScore (dc_score dc)) ::
                    Fetch url :: SetIcon tabId CONFIG.icons_safe :: effects st)%list).
    { rewrite settled_effects. reflexivity. }
    repeat match goal with |- _ /\ _ => split end; try reflexivity.
    + exact Hfind.
    + rewrite settled_storage. apply store_tab_entry.
    + rewrite settled_storage. apply store_url_entry.
    + rewrite settled_storage. apply store_lastScan.
    + unfold iconOf. rewrite Heff.
      destruct (geq (dc_score dc) 70 && _); simpl;
        rewrite decide_True by reflexivity; reflexivity.
    + exact Heff.
  - repeat match goal with |- _ /\ _ => split end; try reflexivity.
    unfold readScan. simpl. apply lookup_delete_eq.
Qed.

(** A 502 for an impersonating domain and for a clean one. *)
Lemma C2_dead_site_fallback_witness :
  fst (scanUrl_try "http://paypa1-secure.com/login" 3 badGateway emptyState) = inr tt /\
  fst (scanUrl_try "http://example.com/" 3 badGateway emptyState) = inl (ApiError 502).
Proof.
  split.
  - destruct (C2_dead_site_fallback emptyState "http://paypa1-secure.com/login" 3
                badGateway (mkResponse 502 None) eq_refl eq_refl) as [H _].
    destruct (H ltac:(vm_compute; reflexivity)) as (result & Hrun & _).
    exact Hrun.
  - destruct (C2_dead_site_fallback emptyState "http://example.com/" 3
                badGateway (mkResponse 502 None) eq_refl eq_refl) as [_ H].
    destruct (H ltac:(vm_compute; reflexivity)) as (Hrun & _).
    exact Hrun.
Defined.

Lemma scanUrl_failed (url : string) (tabId : Z) (env : ScanEnv) (st : State) :
  scanFails url env ->
  exists e, fst (scanUrl_try url tabId env st) = inl e /\
            scanUrl url tabId env st = scanUrl_catch tabId e (scanUrl_pending url tabId st).
Proof.
  intros Hfail. unfold scanUrl, tryCatch. rewrite scanUrl_try_run. cbv zeta.
  destruct Hfail as [->|(r & -> & [[Hok Hs]|[Hok Hb]])].
  - eauto.
  - rewrite Hok, Hs. eauto.
  - rewrite Hok, Hb. eauto.
Qed.

Lemma readScan_pending (url : string) (tabId : Z) (st : State) :
  readScan tabId (scanUrl_pending url tabId st) = None.
Proof. unfold readScan. rewrite pending_storage. apply lookup_delete_eq. Qed.


Lemma freshScan_no_entry (tabId now : Z) (st : State) :
  readScan tabId st = None -> freshScan tabId now st = None.
Proof. intros H. unfold freshScan. rewrite H. reflexivity. Qed.

(** A query that finds no entry and whose own scan is still waiting for
    the service answers [null]. *)
Lemma getCurrentScan_still_fetching (tabId now : Z) (tabUrl : option string)
    (tabs : list Tab) (st : State) :
  readScan tabId st = None ->
  fst (getCurrentScan (mkTab tabId tabUrl :: tabs) now StillFetching st) = None.
Proof.
  intros H. simpl. rewrite (freshScan_no_entry _ _ _ H).
  destruct tabUrl as [u|]; [|reflexivity].
  destruct (String.eqb u ""); [reflexivity|]. simpl. apply readScan_pending.
Qed.

(** After any run of [scanUrl] the tab's entry is what that run stored. *)
Lemma readScan_scanUrl (url : string) (tabId : Z) (env : ScanEnv) (st : State) :
  readScan tabId (scanUrl url tabId env st) = VResult <$> scanResultOf url env.
Proof.
  unfold scanUrl, tryCatch, scanResultOf. rewrite scanUrl_try_run. cbv zeta.
  destruct (outcome env) as [|r]; [apply readScan_pending|].
  destruct (ok r).
  - destruct (body r); [|apply readScan_pending].
    unfold readScan. rewrite settled_storage. apply store_tab_entry.
  - destruct (suspicious _); [|apply readScan_pending].
    unfold readScan. rewrite settled_storage. apply store_tab_entry.
Qed.

(** ** Runs of [scanUrl] that overlap *)

Lemma store_split (tabId : Z) (url : string) (result : ScanResult) (t t' : Z) (st : State) :
  storeScanResult tabId url result t t' st =
  storeScanResult_callback url result t' (storeScanResult_set tabId url result t st).
Proof.
  unfold storeScanResult, storeScanResult_callback, storeScanResult_set.
  destruct (res_score result); reflexivity.
Qed.

Lemma settled_split (url : string) (tabId : Z) (result : ScanResult) (env : ScanEnv)
    (st : State) :
  settledState url tabId result env st =
  afterStore tabId result
    (storeScanResult_callback url result (loggedAt env)
       (storeScanResult_set tabId url result (storedAt env) st)).
Proof. unfold settledState, afterStore. rewrite store_split. reflexivity. Qed.

(** The steps of a run, taken without interruption, are [scanUrl]. *)
Lemma scan_alone (url : string) (tabId : Z) (env : ScanEnv) (st : State) :
  runAlone (mkScan url tabId env) st = scanUrl url tabId env st.
Proof.
  unfold scanUrl, tryCatch. rewrite scanUrl_try_run. cbv zeta.
  unfold runAlone, interleave, launch, advance, stepScan.
  cbn [fold_left map fst snd lookup list_lookup insert list_insert
       scan_url scan_tabId scan_env].
  change (emit (Fetch url) (safeSetIcon tabId CONFIG.icons_safe (clearTabCache tabId st)))
    with (scanUrl_pending url tabId st).
  destruct (outcome env) as [|r]; [reflexivity|].
  destruct (ok r); cbn [negb fst snd lookup list_lookup insert list_insert].
  - destruct (body r); cbn [fst snd lookup list_lookup insert list_insert];
      [symmetry; apply settled_split | reflexivity].
  - destruct (suspicious (checkSuspiciousDomain url));
      cbn [fst snd lookup list_lookup insert list_insert];
      [symmetry; apply settled_split | reflexivity].
Qed.

Lemma scanFails_none (url : string) (env : ScanEnv) :
  scanFails url env <-> scanResultOf url env = None.
Proof.
  unfold scanFails, scanResultOf. split.
  - intros [->|(r & -> & [[-> ->]|[-> ->]])]; reflexivity.
  - destruct (outcome env) as [|r]; [auto|]. intros H. right. exists r.
    split; [reflexivity|]. destruct (ok r); [auto|].
    destruct (suspicious _); [discriminate H | auto].
Qed.

Lemma set_tab_entry (tabId : Z) (url : string) (result : ScanResult) (t : Z) (st : State) :
  readScan tabId (storeScanResult_set tabId url result t st) = Some (VResult result).
Proof.
  unfold readScan, storeScanResult_set. simpl.
  rewrite (lookup_insert_ne _ "lastScan") by (apply lastScan_not_tab).
  rewrite lookup_insert. case_decide; first [reflexivity | apply lookup_insert_eq].
Qed.

Lemma set_other_entry (tabId other : Z) (url : string) (result : ScanResult) (t : Z)
    (st : State) :
  other <> tabId -> Str.includes ":" url = true ->
  readScan other (storeScanResult_set tabId url result t st) = readScan other st.
Proof.
  intros Hne Hurl. unfold readScan, storeScanResult_set. simpl.
  rewrite (lookup_insert_ne _ "lastScan") by (apply lastScan_not_tab).
  rewrite (lookup_insert_ne _ (scanKeyUrl url)) by (apply url_key_not_tab_key, Hurl).
  apply lookup_insert_ne. intros E. apply Hne. symmetry. apply scanKeyTab_inj, E.
Qed.

Lemma callback_entry (tabId : Z) (url : string) (result : ScanResult) (t : Z) (st : State) :
  readScan tabId (storeScanResult_callback url result t st) = readScan tabId st.
Proof.
  unfold readScan, storeScanResult_callback. destruct (res_score result); [|reflexivity].
  simpl. apply lookup_insert_ne, settings_not_tab.
Qed.

Lemma callback_effects (url : string) (result : ScanResult) (t : Z) (st : State) :
  effects (storeScanResult_callback url result t st) = effects st.
Proof. unfold storeScanResult_callback. destruct (res_score result); reflexivity. Qed.

Lemma afterStore_entry (tabId other : Z) (result : ScanResult) (st : State) :
  readScan other (afterStore tabId result st) = readScan other st.
Proof.
  unfold afterStore, readScan, updateIconForScore, safeSetIcon, showWarningSafely, emit.
  simpl. destruct (geq _ _ && _); reflexivity.
Qed.

Lemma afterStore_icon (tabId : Z) (result : ScanResult) (st : State) :
  iconOf tabId (afterStore tabId result st) = Some (iconPathForScore (res_score result)).
Proof.
  unfold afterStore, iconOf, updateIconForScore, safeSetIcon, showWarningSafely, emit.
  simpl. destruct (geq _ _ && _); simpl; rewrite decide_True by reflexivity; reflexivity.
Qed.

Lemma afterStore_other_icon (tabId other : Z) (result : ScanResult) (st : State) :
  other <> tabId -> iconOf other (afterStore tabId result st) = iconOf other st.
Proof.
  intros Hne.
  unfold afterStore, iconOf, updateIconForScore, safeSetIcon, showWarningSafely, emit.
  simpl. destruct (geq _ _ && _); simpl; rewrite decide_False by congruence; reflexivity.
Qed.

Lemma catch_entry (tabId other : Z) (e : Error) (st : State) :
  readScan other (scanUrl_catch tabId e st) = readScan other st.
Proof. reflexivity. Qed.

Lemma catch_icon (tabId : Z) (e : Error) (st : State) :
  iconOf tabId (scanUrl_catch tabId e st) = Some CONFIG.icons_safe.
Proof.
  unfold iconOf, scanUrl_catch, safeSetIcon, emit. simpl.
  rewrite decide_True by reflexivity. reflexivity.
Qed.

Lemma catch_other_icon (tabId other : Z) (e : Error) (st : State) :
  other <> tabId -> iconOf other (scanUrl_catch tabId e st) = iconOf other st.
Proof.
  intros Hne. unfold iconOf, scanUrl_catch, safeSetIcon, emit. simpl.
  rewrite decide_False by congruence. reflexivity.
Qed.

(** A step of a run for another tab leaves this tab's entry and icon. *)
Lemma other_step_frame (other : Scan) (stage : Stage) (st : State) (tabId : Z) :
  scan_tabId other <> tabId -> Str.includes ":" (scan_url other) = true ->
  readScan tabId (snd (stepScan other stage st)) = readScan tabId st /\
  iconOf tabId (snd (stepScan other stage st)) = iconOf tabId st.
Proof.
  intros Hne Hurl. assert (Hne' : tabId <> scan_tabId other) by congruence.
  assert (Hset : forall result t,
            readScan tabId (storeScanResult_set (scan_tabId other) (scan_url other) result t st)
              = readScan tabId st /\
            iconOf tabId (storeScanResult_set (scan_tabId other) (scan_url other) result t st)
              = iconOf tabId st).
  { intros result t. split; [apply set_other_entry; assumption | reflexivity]. }
  assert (Hcatch : forall e,
            readScan tabId (scanUrl_catch (scan_tabId other) e st) = readScan tabId st /\
            iconOf tabId (scanUrl_catch (scan_tabId other) e st) = iconOf tabId st).
  { intros e. split; [reflexivity | apply catch_other_icon; assumption]. }
  unfold stepScan. destruct stage as [| | |r|result|result|e]; cbn [snd].
  - split; [|reflexivity]. unfold readScan, clearTabCache. simpl.
    apply lookup_delete_ne. intros E. apply Hne, scanKeyTab_inj, E.
  - split; [reflexivity|]. unfold iconOf, safeSetIcon, emit. simpl.
    rewrite decide_False by congruence. reflexivity.
  - destruct (outcome (scan_env other)) as [|r]; cbn [snd]; [apply Hcatch|].
    destruct (ok r); cbn [negb snd]; [auto|].
    destruct (suspicious _); cbn [snd]; [apply Hset | apply Hcatch].
  - destruct (body r); cbn [snd]; [apply Hset | apply Hcatch].
  - split.
    + rewrite afterStore_entry, callback_entry. reflexivity.
    + rewrite afterStore_other_icon by assumption.
      unfold iconOf. rewrite callback_effects. reflexivity.
  - auto.
  - auto.
Qed.

Lemma tracks_frame (sc : Scan) (stage : Stage) (st st' : State) :
  readScan (scan_tabId sc) st' = readScan (scan_tabId sc) st ->
  iconOf (scan_tabId sc) st' = iconOf (scan_tabId sc) st ->
  tracks sc stage st -> tracks sc stage st'.
Proof. unfold tracks. intros -> ->. auto. Qed.

(** A run's own step keeps what [tracks] says of its tab. *)
Lemma tracks_step (sc : Scan) (stage : Stage) (st : State) :
  tracks sc stage st ->
  tracks sc (fst (stepScan sc stage st)) (snd (stepScan sc stage st)).
Proof.
  destruct sc as [url tabId env]. unfold tracks, possible, stepScan.
  cbn [scan_url scan_tabId scan_env].
  destruct stage as [| | |r|result|result|e]; cbn [fst snd]; intros [Hp Ht].
  - split; [exact I|]. unfold readScan, clearTabCache. simpl. apply lookup_delete_eq.
  - split; [exact I|]. exact Ht.
  - unfold scanResultOf. destruct (outcome env) as [|r]; cbn [fst snd].
    + split; [reflexivity|]. split; [exact Ht | apply catch_icon].
    + destruct (ok r) eqn:Hok; cbn [negb fst snd].
      * split; [auto | exact Ht].
      * destruct (suspicious _); cbn [fst snd].
        -- split; [reflexivity | apply set_tab_entry].
        -- split; [reflexivity|]. split; [exact Ht | apply catch_icon].
  - destruct Hp as [Hr Hok]. unfold scanResultOf. rewrite Hr, Hok.
    destruct (body r); cbn [fst snd].
    + split; [reflexivity | apply set_tab_entry].
    + split; [reflexivity|]. split; [exact Ht | apply catch_icon].
  - split; [exact Hp|]. split.
    + rewrite afterStore_entry, callback_entry. exact Ht.
    + apply afterStore_icon.
  - auto.
  - auto.
Qed.

Lemma launch_lookup (scans : list Scan) (j : nat) :
  launch scans !! j = (fun sc => (sc, Starting)) <$> scans !! j.
Proof.
  revert j. induction scans as [|sc scans IH]; intros [|j]; simpl; auto.
Qed.

(** While the [i]-th run is the only one for its tab, [tracks] holds of it
    however the runs are interleaved. *)
Lemma interleave_tracks (scans : list Scan) (i : nat) (sc : Scan) (schedule : list nat)
    (st0 : State) :
  scans !! i = Some sc -> aloneOnTab i (scan_tabId sc) scans ->
  exists stage,
    snd (interleave schedule (st0, launch scans)) !! i = Some (sc, stage) /\
    tracks sc stage (fst (interleave schedule (st0, launch scans))).
Proof.
  intros Hi Halone.
  set (good := fun cfg : State * list (Scan * Stage) =>
         (forall j other stg, snd cfg !! j = Some (other, stg) -> scans !! j = Some other) /\
         exists stage, snd cfg !! i = Some (sc, stage) /\ tracks sc stage (fst cfg)).
  assert (Hstart : good (st0, launch scans)).
  { split.
    - intros j other stg. cbn [snd]. rewrite launch_lookup.
      destruct (scans !! j); simpl; congruence.
    - exists Starting. cbn [fst snd]. rewrite launch_lookup, Hi.
      split; [reflexivity|]. split; exact I. }
  assert (Hstep : forall j cfg, good cfg -> good (advance j cfg)).
  { intros j [st pool] [Hpool (stage & Hsc & Ht)]. cbn [fst snd] in *.
    unfold advance. cbn [fst snd].
    destruct (pool !! j) as [[other stg]|] eqn:Hj; [|split; eauto].
    destruct (stepScan other stg st) as [stg' st'] eqn:Hs. split; cbn [fst snd].
    - intros k o s'. destruct (decide (j = k)) as [<-|Hjk].
      + rewrite list_lookup_insert_eq by (eapply lookup_lt_Some; exact Hj).
        intros [= <- <-]. eapply Hpool. exact Hj.
      + rewrite list_lookup_insert_ne by exact Hjk. apply Hpool.
    - destruct (decide (j = i)) as [->|Hji].
      + rewrite Hsc in Hj. injection Hj as <- <-.
        exists stg'. rewrite list_lookup_insert_eq by (eapply lookup_lt_Some; exact Hsc).
        split; [reflexivity|].
        pose proof (tracks_step sc stage st Ht) as H. rewrite Hs in H. exact H.
      + exists stage. rewrite list_lookup_insert_ne by exact Hji.
        split; [exact Hsc|].
        destruct (Halone j other Hji (Hpool _ _ _ Hj)) as [Htab Hurl].
        destruct (other_step_frame other stg st (scan_tabId sc) Htab Hurl) as [Hr Hic].
        rewrite Hs in Hr, Hic. cbn [snd] in Hr, Hic.
        apply (tracks_frame sc stage st st' Hr Hic Ht). }
  assert (Hall : forall cfg, good cfg -> good (interleave schedule cfg)).
  { unfold interleave. induction schedule as [|j schedule IH]; intros cfg Hc; simpl; auto. }
  destruct (Hall _ Hstart) as [_ H]. exact H.
Qed.

(** C7, as stated, fails: runs of [scanUrl] for one tab are not kept
    apart.  Here a first run for tab 3 is waiting for the service when a
    second run for the same tab starts and clears the entry; the first
    run's answer arrives and is stored; then the second run times out.
    After the failed run the tab has an entry, that of the earlier run,
    and the query answers with it. *)
Lemma C7_counterexample :
  let cfg := interleave [0; 0; 1; 1; 0; 0; 0; 1]%nat
               (emptyState, launch [answeredScan; abortedScan]) in
  scanFails (scan_url abortedScan) (scan_env abortedScan) /\
  snd cfg !! 1%nat = Some (abortedScan, Failed ApiNotReachable) /\
  readScan 3 (fst cfg) <> None /\
  fst (getCurrentScan [mkTab 3 (Some "https://shop.example/cart")] 6000 StillFetching
         (fst cfg)) =
    Some (VResult (mkResult (Some 82) (Some "low") (Some []))).
Proof.
  cbv zeta. split; [left; reflexivity|].
  split; [vm_compute; reflexivity|].
  split; [vm_compute; discriminate | vm_compute; reflexivity].
Qed.

(** C7, amended.  If a scan for a tab fails (timeout or transport failure,
    a non-2xx status for a domain that is not suspicious, or a success
    status with a body that is not JSON), then, whatever other handlers
    did while it was waiting, the step at which it fails leaves the tab
    with the safe icon and changes neither store nor settings; the run is
    not taken up again and sends one request; and none of its steps writes
    to the store, the removal of the tab's entry at its first step being
    its only change.  So, when no other run for the same tab is in flight,
    then however the runs for other tabs are interleaved with it, from its
    first step on the tab has no entry: the query finds nothing fresh and,
    its own scan still waiting, answers [null].  Taken without
    interruption the steps are [scanUrl], which then leaves the store with
    the tab's entry removed and nothing else changed. *)
Theorem C7_failed_scan (url : string) (tabId : Z) (env : ScanEnv)
    (Hfail : scanFails url env) :
  let sc := mkScan url tabId env in
  (forall stage st e,
     (forall e0, stage <> Failed e0) -> fst (stepScan sc stage st) = Failed e ->
     let st' := snd (stepScan sc stage st) in
     iconOf tabId st' = Some CONFIG.icons_safe /\
     effects st' = SetIcon tabId CONFIG.icons_safe :: ConsoleError e :: effects st /\
     storage st' = storage st /\ settings st' = settings st) /\
  (forall e st, stepScan sc (Failed e) st = (Failed e, st)) /\
  (forall stage st,
     fetchCount (effects (snd (stepScan sc stage st))) =
     (fetchCount (effects st) + match stage with Clearing => 1 | _ => 0 end)%nat) /\
  (forall stage st, possible sc stage ->
     possible sc (fst (stepScan sc stage st)) /\
     settings (snd (stepScan sc stage st)) = settings st /\
     storage (snd (stepScan sc stage st)) =
       match stage with
       | Starting => delete (scanKeyTab tabId) (storage st)
       | _ => storage st
       end) /\
  (forall scans i schedule st0 stage,
     scans !! i = Some sc -> aloneOnTab i tabId scans ->
     let cfg := interleave schedule (st0, launch scans) in
     snd cfg !! i = Some (sc, stage) -> stage <> Starting ->
     readScan tabId (fst cfg) = None /\
     (forall now, freshScan tabId now (fst cfg) = None) /\
     (forall now tabUrl tabs,
        fst (getCurrentScan (mkTab tabId tabUrl :: tabs) now StillFetching (fst cfg)) = None) /\
     (forall e, stage = Failed e -> iconOf tabId (fst cfg) = Some CONFIG.icons_safe)) /\
  (forall st,
     runAlone sc st = scanUrl url tabId env st /\
     storage (runAlone sc st) = delete (scanKeyTab tabId) (storage st) /\
     settings (runAlone sc st) = settings st /\
     fetchCount (effects (runAlone sc st)) = S (fetchCount (effects st))).
Proof.
  intros sc. pose proof (proj1 (scanFails_none url env) Hfail) as Hnone.
  split; [|split; [|split; [|split; [|split]]]].
  - intros stage st e Hnot. unfold stepScan, sc. cbn [scan_url scan_tabId scan_env].
    assert (Hcatch : forall e1, Failed e1 = Failed e ->
              iconOf tabId (scanUrl_catch tabId e1 st) = Some CONFIG.icons_safe /\
              effects (scanUrl_catch tabId e1 st) =
                SetIcon tabId CONFIG.icons_safe :: ConsoleError e :: effects st /\
              storage (scanUrl_catch tabId e1 st) = storage st /\
              settings (scanUrl_catch tabId e1 st) = settings st).
    { intros e1 [= ->]. split; [apply catch_icon | repeat split]. }
    destruct stage as [| | |r|result|result|e1]; cbn [fst snd]; try discriminate.
    + destruct (outcome env) as [|r]; cbn [fst snd]; [apply Hcatch|].
      destruct (ok r); cbn [negb fst snd]; [discriminate|].
      destruct (suspicious _); cbn [fst snd]; [discriminate | apply Hcatch].
    + destruct (body r); cbn [fst snd]; [discriminate | apply Hcatch].
    + intros _. destruct (Hnot e1 eq_refl).
  - reflexivity.
  - intros stage st. unfold stepScan, sc. cbn [scan_url scan_tabId scan_env].
    destruct stage as [| | |r|result|result|e1]; cbn [snd]; try (simpl; lia).
    + destruct (outcome env) as [|r]; cbn [snd]; [simpl; lia|].
      destruct (ok r); cbn [negb snd]; [lia|].
      destruct (suspicious _); cbn [snd]; simpl; lia.
    + destruct (body r); cbn [snd]; simpl; lia.
    + unfold afterStore, updateIconForScore, safeSetIcon, showWarningSafely, emit.
      cbn [effects]. destruct (geq _ _ && _); cbn [effects fetchCount];
        rewrite callback_effects; lia.
  - intros stage st. unfold possible, stepScan, sc. cbn [scan_url scan_tabId scan_env].
    destruct stage as [| | |r|result|result|e1]; cbn [fst snd]; intros Hp;
      try (split; [first [exact I | exact Hp] | split; reflexivity]);
      try congruence.
    + unfold scanResultOf in *. destruct (outcome env) as [|r]; cbn [fst snd];
        [repeat split|].
      destruct (ok r) eqn:Hok; cbn [negb fst snd].
      * repeat split; assumption.
      * destruct (suspicious _); [discriminate Hnone | repeat split].
    + destruct Hp as [Hr Hok]. unfold scanResultOf in *. rewrite Hr, Hok in *.
      destruct (body r); [discriminate Hnone | repeat split].
  - intros scans i schedule st0 stage Hi Halone cfg Hstage Hstarted.
    destruct (interleave_tracks scans i sc schedule st0 Hi Halone) as (stage' & Hs' & Ht).
    fold cfg in Hs', Ht. rewrite Hstage in Hs'. injection Hs' as <-.
    destruct Ht as [Hp Ht]. unfold possible in Hp. cbn [scan_url scan_tabId scan_env sc] in *.
    assert (Hread : readScan tabId (fst cfg) = None).
    { destruct stage as [| | |r|result|result|e1]; try congruence; tauto. }
    split; [exact Hread|]. split; [|split].
    + intros now. apply freshScan_no_entry, Hread.
    + intros now tabUrl tabs. apply getCurrentScan_still_fetching, Hread.
    + intros e ->. tauto.
  - intros st. unfold sc. rewrite scan_alone.
    destruct (scanUrl_failed url tabId env st Hfail) as (e & _ & ->).
    repeat split.
Qed.

(** A run for tab 3 that times out while a run for tab 4 stores its
    result; tab 3 had an entry before. *)
Lemma C7_failed_scan_witness :
  let before := storeScanResult 3 "https://old.example/" (mkResult (Some 80) None None)
                  10 11 emptyState in
  let cfg := interleave [1; 0; 0; 1; 0; 0; 0; 1]%nat
               (before, launch [neighbourScan; abortedScan]) in
  readScan 3 (fst cfg) = None /\ iconOf 3 (fst cfg) = Some CONFIG.icons_safe.
Proof.
  intros before cfg.
  destruct (C7_failed_scan "https://shop.example/cart" 3 timedOut (or_introl eq_refl))
    as (_ & _ & _ & _ & H & _).
  destruct (H [neighbourScan; abortedScan] 1%nat [1; 0; 0; 1; 0; 0; 0; 1]%nat before
              (Failed ApiNotReachable) eq_refl) as (Hread & _ & _ & Hicon).
  - intros j other Hj Hother. destruct j as [|[|j]]; [|congruence|discriminate Hother].
    injection Hother as <-. split; [discriminate | vm_compute; reflexivity].
  - vm_compute. reflexivity.
  - discriminate.
  - split; [exact Hread | exact (Hicon _ eq_refl)].
Defined.

(** * Further properties of the code *)

(** ** The heuristic looks at the host only *)

Lemma append_cons (a : ascii) (s t : string) : String a s +:+ t = String a (s +:+ t).
Proof. reflexivity. Qed.

Lemma append_nil (t : string) : "" +:+ t = t.
Proof. reflexivity. Qed.

Lemma beforeFirst_slash_app (s rest : string) :
  Str.beforeFirst "/" (s +:+ String "/" rest) = Str.beforeFirst "/" s.
Proof.
  induction s as [|a s IH].
  - reflexivity.
  - rewrite append_cons. cbn [Str.beforeFirst].
    destruct (Ascii.eqb a "/"); [reflexivity | rewrite IH; reflexivity].
Qed.

Lemma startsWith_split (p s : string) :
  Str.startsWith p s = true -> exists u, s = p +:+ u.
Proof.
  revert s. induction p as [|a p IH]; intros s; cbn [Str.startsWith].
  - exists s. reflexivity.
  - destruct s as [|b s]; [discriminate|].
    destruct (Ascii.eqb a b) eqn:E; [|discriminate].
    apply Ascii.eqb_eq in E as ->. intros H. destruct (IH _ H) as [u ->].
    exists u. reflexivity.
Qed.

Lemma stripScheme_app (url t : string) :
  Str.startsWith "http://" url = true \/ Str.startsWith "https://" url = true ->
  stripScheme (url +:+ t) = stripScheme url +:+ t.
Proof.
  intros [H|H]; apply startsWith_split in H as [u ->]; reflexivity.
Qed.

(** X1.  For a URL with an [http://] or [https://] scheme, a slash and any
    text appended to it change neither the extracted domain nor the answer
    of the heuristic: what comes after the first slash behind the scheme is
    not looked at. *)
Theorem heuristic_ignores_path (url path : string)
    (Hscheme : Str.startsWith "http://" url = true \/ Str.startsWith "https://" url = true) :
  extractDomain (url +:+ "/" +:+ path) = extractDomain url /\
  checkSuspiciousDomain (url +:+ "/" +:+ path) = checkSuspiciousDomain url.
Proof.
  assert (E : extractDomain (url +:+ "/" +:+ path) = extractDomain url).
  { unfold extractDomain. rewrite stripScheme_app by exact Hscheme.
    change ("/" +:+ path) with (String "/" path).
    rewrite beforeFirst_slash_app. reflexivity. }
  split; [exact E|]. unfold checkSuspiciousDomain. rewrite E. reflexivity.
Qed.

Lemma heuristic_ignores_path_witness :
  checkSuspiciousDomain ("https://example.com" +:+ "/" +:+ "paypa1/micr0soft.com/login") =
  notSuspicious.
Proof.
  destruct (heuristic_ignores_path "https://example.com" "paypa1/micr0soft.com/login"
              (or_intror eq_refl)) as [_ ->].
  vm_compute. reflexivity.
Defined.

(** ** First match wins *)

Lemma find_upto {A} (f : A -> bool) (l1 l2 : list A) (x : A) :
  f x = true -> exists z, List.find f (l1 ++ x :: l2)%list = Some z /\ In z (l1 ++ [x])%list.
Proof.
  intros Hx. induction l1 as [|a l1 (z & Hz & Hin)]; simpl.
  - rewrite Hx. eauto.
  - destruct (f a); eauto.
Qed.

Lemma find_skip {A} (f : A -> bool) (l1 l2 : list A) :
  forallb (fun a => negb (f a)) l1 = true ->
  List.find f (l1 ++ l2)%list = List.find f l2.
Proof.
  induction l1 as [|a l1 IH]; simpl; [reflexivity|].
  intros H. apply andb_true_iff in H as [Ha Hl].
  apply negb_true_iff in Ha. rewrite Ha. auto.
Qed.

Lemma table_split (n : nat) :
  suspiciousPatterns = (firstn n suspiciousPatterns ++ skipn n suspiciousPatterns)%list.
Proof. symmetry. apply firstn_skipn. Qed.

Lemma matchPattern_skip (n : nat) (domain : string) :
  noneIncluded (firstn n suspiciousPatterns) domain = true ->
  matchPattern domain =
  List.find (fun item => Str.includes (pattern item) domain) (skipn n suspiciousPatterns).
Proof.
  intros H. unfold matchPattern. rewrite (table_split n) at 1.
  apply find_skip. exact H.
Qed.

(** X2.  Every URL whose host includes [googl] is reported as an
    impersonation with a score of at least 70 and the HIGH level; this
    holds for the hosts of Google itself.  When none of the eight entries
    above [googl] occurs, the answer is the one for the missing letter. *)
Theorem googl_is_reported (url : string)
    (Hgoogl : Str.includes "googl" (extractDomain url) = true) :
  let domain := extractDomain url in
  suspicious (checkSuspiciousDomain url) = true /\
  (exists sc, dc_score (checkSuspiciousDomain url) = Some sc /\ 70 <= sc) /\
  dc_risk_level (checkSuspiciousDomain url) = Some HIGH_RISK /\
  (noneIncluded (firstn 8 suspiciousPatterns) domain = true ->
   checkSuspiciousDomain url =
     mkDomainCheck true (Some 70) (Some HIGH_RISK)
       (Some [ "⚠️ Domain '" +:+ domain +:+ "' impersonates Google";
               "⚠️ Missing letter";
               "⚠️ Site appears down but domain is suspicious" ])).
Proof.
  intros domain.
  destruct (find_upto (fun item => Str.includes (pattern item) domain)
              (firstn 8 suspiciousPatterns) (skipn 9 suspiciousPatterns)
              (mkPattern "googl" 70 "Google" "Missing letter") Hgoogl)
    as (z & Hz & Hin).
  change (matchPattern domain = Some z) in Hz.
  unfold checkSuspiciousDomain. fold domain. split; [|split; [|split]].
  - rewrite Hz. simpl in Hin.
    repeat (destruct Hin as [<-|Hin]; [reflexivity|]). destruct Hin.
  - rewrite Hz. simpl in Hin.
    repeat (destruct Hin as [<-|Hin]; [simpl; eexists; split; [reflexivity|lia]|]).
    destruct Hin.
  - rewrite Hz. simpl in Hin.
    repeat (destruct Hin as [<-|Hin]; [reflexivity|]). destruct Hin.
  - intros Hnone. rewrite (matchPattern_skip 8 domain Hnone).
    simpl. fold domain in Hgoogl. rewrite Hgoogl. reflexivity.
Qed.

Lemma googl_is_reported_witness :
  checkSuspiciousDomain "https://www.google.com/search?q=weather" =
  mkDomainCheck true (Some 70) (Some HIGH_RISK)
    (Some [ "⚠️ Domain 'google.com' impersonates Google";
            "⚠️ Missing letter";
            "⚠️ Site appears down but domain is suspicious" ]).
Proof.
  destruct (googl_is_reported "https://www.google.com/search?q=weather"
              ltac:(vm_compute; reflexivity)) as (_ & _ & _ & H).
  rewrite (H ltac:(vm_compute; reflexivity)). vm_compute. reflexivity.
Defined.

(** X3.  A host that includes [paypal] and none of the eleven patterns
    above it in the table is reported as not suspicious, whatever later
    patterns or digit substitutions it contains; likewise for [chase] and
    the twenty-three patterns above it. *)
Theorem legitimate_name_hides_the_rest (url : string) :
  let domain := extractDomain url in
  (noneIncluded (firstn 11 suspiciousPatterns) domain = true ->
   Str.includes "paypal" domain = true ->
   checkSuspiciousDomain url = notSuspicious) /\
  (noneIncluded (firstn 23 suspiciousPatterns) domain = true ->
   Str.includes "chase" domain = true ->
   checkSuspiciousDomain url = notSuspicious).
Proof.
  intros domain. unfold checkSuspiciousDomain. fold domain.
  split; intros Hnone Hinc.
  - rewrite (matchPattern_skip 11 domain Hnone). simpl. rewrite Hinc. reflexivity.
  - rewrite (matchPattern_skip 23 domain Hnone). simpl. rewrite Hinc. reflexivity.
Qed.

Lemma legitimate_name_hides_the_rest_witness :
  checkSuspiciousDomain "https://paypal.com.faceb00k-login.net/verify" = notSuspicious /\
  Str.includes "faceb00k" (extractDomain "https://paypal.com.faceb00k-login.net/verify") = true.
Proof.
  destruct (legitimate_name_hides_the_rest "https://paypal.com.faceb00k-login.net/verify")
    as [H _].
  split; [apply H|]; vm_compute; reflexivity.
Defined.

(** ** The substitution pass *)

Lemma replaceAll_absent (c d : ascii) (s : string) :
  Str.includes (String c "") s = false -> Str.replaceAll c d s = s.
Proof.
  induction s as [|a s IH]; [reflexivity|].
  cbn [Str.includes Str.startsWith Str.replaceAll]. intros H.
  apply orb_false_iff in H as [Ha Hs].
  destruct (Ascii.eqb c a) eqn:E.
  - discriminate Ha.
  - rewrite Ascii.eqb_sym, E, (IH Hs). reflexivity.
Qed.

(** X4.  Only the digits 0, 1, 3, 4, 5 and 7 are substituted: a host that
    matches no table pattern and has none of these six digits (it may have
    2, 6, 8 or 9) is never reported, whatever brand names it is near to. *)
Theorem unmapped_digits_are_ignored (url : string)
    (Htable : matchPattern (extractDomain url) = None)
    (H0 : Str.includes "0" (extractDomain url) = false)
    (H1 : Str.includes "1" (extractDomain url) = false)
    (H3 : Str.includes "3" (extractDomain url) = false)
    (H4 : Str.includes "4" (extractDomain url) = false)
    (H5 : Str.includes "5" (extractDomain url) = false)
    (H7 : Str.includes "7" (extractDomain url) = false) :
  normalizeDigits (extractDomain url) = extractDomain url /\
  checkSuspiciousDomain url = notSuspicious.
Proof.
  assert (E : normalizeDigits (extractDomain url) = extractDomain url).
  { unfold normalizeDigits.
    rewrite (replaceAll_absent "0") by exact H0.
    rewrite (replaceAll_absent "1") by exact H1.
    rewrite (replaceAll_absent "3") by exact H3.
    rewrite (replaceAll_absent "4") by exact H4.
    rewrite (replaceAll_absent "5") by exact H5.
    apply replaceAll_absent. exact H7. }
  split; [exact E|].
  unfold checkSuspiciousDomain. rewrite Htable, E.
  destruct (Str.hasDigit _); [|reflexivity].
  replace (matchBrand (extractDomain url) (extractDomain url)) with (@None string);
    [reflexivity|].
  unfold matchBrand, brands. simpl.
  repeat match goal with
         | |- context [Str.includes ?b ?d && negb (Str.includes ?b ?d)] =>
             rewrite (andb_negb_r (Str.includes b d))
         end.
  reflexivity.
Qed.

Lemma unmapped_digits_are_ignored_witness :
  checkSuspiciousDomain "https://g66gle-2689.example.org/" = notSuspicious.
Proof.
  apply (unmapped_digits_are_ignored "https://g66gle-2689.example.org/");
    vm_compute; reflexivity.
Defined.

(** ** The earlier version of the heuristic *)

Lemma includes_cons_other (p : string) (a c : ascii) (rest s : string) :
  p = String a rest -> Ascii.eqb a c = false ->
  Str.includes p (String c s) = Str.includes p s.
Proof.
  intros -> E. cbn [Str.includes Str.startsWith]. rewrite E. reflexivity.
Qed.

Lemma stripPrefix_split (p s r : string) :
  Str.stripPrefix p s = Some r -> s = p +:+ r.
Proof.
  revert s. induction p as [|a p IH]; intros s; cbn [Str.stripPrefix].
  - intros [= ->]. reflexivity.
  - destruct s as [|b s]; [discriminate|].
    destruct (Ascii.eqb a b) eqn:E; [|discriminate].
    apply Ascii.eqb_eq in E as ->. intros H. rewrite (IH _ H). reflexivity.
Qed.

(** A pattern that starts with neither [w] nor a dot is found in a host
    only behind a leading [www.]. *)
Lemma includes_stripWww (p domain : string) (a : ascii) (rest : string) :
  p = String a rest -> Ascii.eqb a "w" = false -> Ascii.eqb a "." = false ->
  Str.includes p domain = true -> Str.includes p (stripWww domain) = true.
Proof.
  intros Hp Hw Hd H. unfold stripWww.
  destruct (Str.stripPrefix "www." domain) as [r|] eqn:Hs; [|exact H].
  apply stripPrefix_split in Hs. subst domain.
  change ("www." +:+ r) with (String "w" (String "w" (String "w" (String "." r)))) in H.
  rewrite !(includes_cons_other p a _ rest) in H by assumption.
  exact H.
Qed.

Lemma earlier_patterns_kept (item : PatternEntry) :
  In item Earlier.suspiciousPatterns ->
  (exists a rest, pattern item = String a rest /\
     Ascii.eqb a "w" = false /\ Ascii.eqb a "." = false) /\
  exists item', In item' suspiciousPatterns /\ pattern item' = pattern item.
Proof.
  intros H.
  assert (Hb : existsb (fun item' => String.eqb (pattern item') (pattern item))
                 suspiciousPatterns = true /\
               exists a rest, pattern item = String a rest /\
                 Ascii.eqb a "w" = false /\ Ascii.eqb a "." = false).
  { unfold Earlier.suspiciousPatterns in H. simpl in H.
    repeat (destruct H as [<-|H];
      [split; [reflexivity | do 2 eexists; split; [reflexivity | split; reflexivity]]|]).
    destruct H. }
  destruct Hb as [Hb Hfirst]. split; [exact Hfirst|].
  apply existsb_exists in Hb as (item' & Hin & Heq).
  apply String.eqb_eq in Heq. eauto.
Qed.

Lemma includes_cons_r (p : string) (c : ascii) (s : string) :
  Str.includes p s = true -> Str.includes p (String c s) = true.
Proof. intros H. cbn [Str.includes]. rewrite H. apply orb_true_r. Qed.

Lemma stripWww_cases (domain : string) :
  stripWww domain = domain \/ domain = "www." +:+ stripWww domain.
Proof.
  unfold stripWww. destruct (Str.stripPrefix "www." domain) as [r|] eqn:Hs; [|auto].
  right. apply stripPrefix_split. exact Hs.
Qed.

Lemma find_some_if {A} (f : A -> bool) (l : list A) (x : A) :
  In x l -> f x = true -> exists z, List.find f l = Some z.
Proof.
  intros Hin Hx. destruct (List.find f l) as [z|] eqn:Hf; [eauto|].
  rewrite (find_none _ _ Hf _ Hin) in Hx. discriminate Hx.
Qed.

Lemma zero_entries (item : PatternEntry) :
  In item suspiciousPatterns -> score item = 0 ->
  pattern item = "paypal" \/ pattern item = "chase".
Proof.
  unfold suspiciousPatterns. simpl. intros H Hz.
  repeat (destruct H as [<-|H]; [first [discriminate Hz | auto]|]). destruct H.
Qed.

Lemma earlier_brands_kept (b : string) :
  In b Earlier.brands ->
  In b brands /\
  exists a rest, b = String a rest /\ Ascii.eqb a "w" = false /\ Ascii.eqb a "." = false.
Proof.
  unfold Earlier.brands, brands. simpl. intros H.
  repeat (destruct H as [<-|H];
    [split; [tauto | do 2 eexists; split; [reflexivity | split; reflexivity]]|]).
  destruct H.
Qed.

(** Whenever the current table has a hit the answer is suspicious, unless
    the hit is one of the two score-0 entries. *)
Lemma table_hit_outcome (url : string) (z : PatternEntry) :
  matchPattern (extractDomain url) = Some z ->
  suspicious (checkSuspiciousDomain url) = true \/
  Str.includes "paypal" (extractDomain url) = true \/
  Str.includes "chase" (extractDomain url) = true.
Proof.
  intros Hz. destruct (matchPattern_In _ _ Hz) as [Hin Hinc].
  unfold checkSuspiciousDomain. rewrite Hz.
  destruct (score z =? 0) eqn:Hs; [|auto].
  apply Z.eqb_eq in Hs. destruct (zero_entries _ Hin Hs) as [E|E];
    rewrite E in Hinc; auto.
Qed.

(** X5.  Moving from the earlier heuristic to the current one loses a
    detection only through the two score-0 entries: a URL the earlier
    version reports is reported by the current one too, unless its host
    includes [paypal] or [chase]. *)
Theorem earlier_detections_kept (url : string)
    (Hearlier : suspicious (Earlier.checkSuspiciousDomain url) = true) :
  suspicious (checkSuspiciousDomain url) = true \/
  Str.includes "paypal" (extractDomain url) = true \/
  Str.includes "chase" (extractDomain url) = true.
Proof.
  set (d0 := Earlier.extractDomain url).
  assert (Hd : extractDomain url = stripWww d0) by reflexivity.
  destruct (matchPattern (extractDomain url)) as [z|] eqn:Hcur;
    [exact (table_hit_outcome url z Hcur)|].
  left. unfold Earlier.checkSuspiciousDomain in Hearlier. fold d0 in Hearlier.
  destruct (Earlier.matchPattern d0) as [item|] eqn:Hold.
  - (* the earlier table hit is a hit of the current table *)
    exfalso. apply find_some in Hold as [Hin Hinc].
    destruct (earlier_patterns_kept item Hin)
      as [(a & rest & Hp & Hw & Hdot) (item' & Hin' & Hp')].
    apply (includes_stripWww _ _ a rest Hp Hw Hdot) in Hinc.
    rewrite <- Hd, <- Hp' in Hinc.
    destruct (find_some_if (fun i => Str.includes (pattern i) (extractDomain url))
                suspiciousPatterns item' Hin' Hinc) as [z Hz].
    unfold matchPattern in Hcur. congruence.
  - destruct (Str.hasDigit d0) eqn:Hdig; [|discriminate Hearlier].
    destruct (Earlier.matchBrand d0 (normalizeDigits d0)) as [b|] eqn:Hb;
      [|discriminate Hearlier].
    apply find_some in Hb as [Hin Hb].
    apply andb_true_iff in Hb as [Hnorm Hraw]. apply negb_true_iff in Hraw.
    destruct (earlier_brands_kept b Hin) as [Hin' (a & rest & Hbp & Hw & Hdot)].
    assert (Hdig' : Str.hasDigit (extractDomain url) = true).
    { rewrite Hd. destruct (stripWww_cases d0) as [->|E]; [exact Hdig|].
      rewrite E in Hdig. exact Hdig. }
    assert (Hnorm' : Str.includes b (normalizeDigits (extractDomain url)) = true).
    { rewrite Hd. destruct (stripWww_cases d0) as [->|E]; [exact Hnorm|].
      rewrite E in Hnorm.
      change (normalizeDigits ("www." +:+ stripWww d0))
        with (String "w" (String "w" (String "w" (String "."
                (normalizeDigits (stripWww d0)))))) in Hnorm.
      rewrite !(includes_cons_other b a _ rest) in Hnorm by assumption.
      exact Hnorm. }
    assert (Hraw' : Str.includes b (extractDomain url) = false).
    { rewrite Hd. destruct (stripWww_cases d0) as [->|E]; [exact Hraw|].
      destruct (Str.includes b (stripWww d0)) eqn:Hi; [|reflexivity].
      rewrite E in Hraw.
      change ("www." +:+ stripWww d0)
        with (String "w" (String "w" (String "w" (String "." (stripWww d0))))) in Hraw.
      apply (includes_cons_r b "."), (includes_cons_r b "w"),
        (includes_cons_r b "w"), (includes_cons_r b "w") in Hi.
      rewrite Hi in Hraw. discriminate Hraw. }
    unfold checkSuspiciousDomain. rewrite Hcur, Hdig'.
    destruct (find_some_if
                (fun b0 => Str.includes b0 (normalizeDigits (extractDomain url)) &&
                           negb (Str.includes b0 (extractDomain url)))
                brands b Hin') as [b' Hb'].
    { rewrite Hnorm', Hraw'. reflexivity. }
    unfold matchBrand. rewrite Hb'. reflexivity.
Qed.

Lemma earlier_detections_kept_witness :
  suspicious (checkSuspiciousDomain "http://www.amaz0n-deals.com/") = true \/
  Str.includes "paypal" (extractDomain "http://www.amaz0n-deals.com/") = true \/
  Str.includes "chase" (extractDomain "http://www.amaz0n-deals.com/") = true.
Proof.
  apply (earlier_detections_kept "http://www.amaz0n-deals.com/").
  vm_compute. reflexivity.
Defined.

(** ** Scans, whatever their outcome *)

Lemma store_same_inputs (tabId : Z) (url : string) (result : ScanResult) (t t' : Z)
    (st1 st2 : State) :
  storage st1 = storage st2 -> settings st1 = settings st2 ->
  storage (storeScanResult tabId url result t t' st1) =
    storage (storeScanResult tabId url result t t' st2) /\
  settings (storeScanResult tabId url result t t' st1) =
    settings (storeScanResult tabId url result t t' st2).
Proof.
  intros Hs Hg. unfold storeScanResult. rewrite Hs, Hg.
  destruct (res_score result); auto.
Qed.

(** What a run of [scanUrl] leaves in the store and in the settings: those
    of the write of its result after the invalidation, or of the
    invalidation alone. *)
Lemma scanUrl_store (url : string) (tabId : Z) (env : ScanEnv) (st : State) :
  let st' := scanUrl url tabId env st in
  match scanResultOf url env with
  | Some r =>
      let written := storeScanResult tabId url r (storedAt env) (loggedAt env)
                       (clearTabCache tabId st) in
      storage st' = storage written /\ settings st' = settings written
  | None =>
      storage st' = delete (scanKeyTab tabId) (storage st) /\ settings st' = settings st
  end.
Proof.
  assert (Hok : forall r,
    let written := storeScanResult tabId url r (storedAt env) (loggedAt env)
                     (clearTabCache tabId st) in
    storage (settledState url tabId r env (scanUrl_pending url tabId st)) = storage written /\
    settings (settledState url tabId r env (scanUrl_pending url tabId st)) = settings written).
  { intros r. cbv zeta. rewrite settled_storage.
    assert (Hset : settings (settledState url tabId r env (scanUrl_pending url tabId st)) =
                   settings (storeScanResult tabId url r (storedAt env) (loggedAt env)
                               (scanUrl_pending url tabId st))).
    { unfold settledState, updateIconForScore, safeSetIcon, showWarningSafely, emit. simpl.
      destruct (geq (res_score r) 70 && _); reflexivity. }
    rewrite Hset. apply store_same_inputs; reflexivity. }
  cbv zeta. unfold scanUrl, tryCatch, scanResultOf. rewrite scanUrl_try_run. cbv zeta.
  destruct (outcome env) as [|r]; [split; reflexivity|].
  destruct (ok r).
  - destruct (body r); [apply Hok | split; reflexivity].
  - destruct (suspicious _); [apply Hok | split; reflexivity].
Qed.

(** The side effects of a run of [scanUrl], in the order they happen
    (latest first). *)
Lemma scanUrl_effects (url : string) (tabId : Z) (env : ScanEnv) (st : State) :
  let st' := scanUrl url tabId env st in
  match scanResultOf url env with
  | Some r =>
      effects st' =
        (ScanComplete tabId r ::
         (if geq (res_score r) 70 && showWarnings (settings st)
          then [ShowWarning tabId (res_score r)] else []) ++
         SetIcon tabId (iconPathForScore (res_score r)) ::
         Fetch url :: SetIcon tabId CONFIG.icons_safe :: effects st)%list
  | None =>
      exists e,
        effects st' =
          SetIcon tabId CONFIG.icons_safe :: ConsoleError e ::
          Fetch url :: SetIcon tabId CONFIG.icons_safe :: effects st
  end.
Proof.
  cbv zeta. unfold scanUrl, tryCatch, scanResultOf. rewrite scanUrl_try_run. cbv zeta.
  destruct (outcome env) as [|r]; [eexists; reflexivity|].
  destruct (ok r).
  - destruct (body r); [apply settled_effects | eexists; reflexivity].
  - destruct (suspicious _); [apply settled_effects | eexists; reflexivity].
Qed.

(** X6.  Every run of [scanUrl], whatever the service does, sends exactly
    one request, for the URL it was given, and leaves the tab with the
    icon for the score it stored, or with the safe icon if it stored
    nothing. *)
Theorem scan_one_request_and_icon (url : string) (tabId : Z) (env : ScanEnv) (st : State) :
  let st' := scanUrl url tabId env st in
  fetchCount (effects st') = S (fetchCount (effects st)) /\
  In (Fetch url) (effects st') /\
  iconOf tabId st' =
    Some (match scanResultOf url env with
          | Some r => iconPathForScore (res_score r)
          | None => CONFIG.icons_safe
          end).
Proof.
  cbv zeta. pose proof (scanUrl_effects url tabId env st) as H. cbv zeta in H.
  unfold iconOf. destruct (scanResultOf url env) as [r|].
  - rewrite H. destruct (geq (res_score r) 70 && _); simpl;
      rewrite decide_True by reflexivity;
      (split; [reflexivity | split; [tauto | reflexivity]]).
  - destruct H as [e ->]. simpl. rewrite decide_True by reflexivity.
    split; [reflexivity | split; [tauto | reflexivity]].
Qed.

Lemma store_lookup_other (tabId : Z) (url : string) (result : ScanResult) (t t' : Z)
    (st : State) (k : string) :
  k <> "settings" -> k <> "lastScan" -> k <> scanKeyUrl url -> k <> scanKeyTab tabId ->
  storage (storeScanResult tabId url result t t' st) !! k = storage st !! k.
Proof.
  intros H1 H2 H3 H4. unfold storeScanResult.
  destruct (res_score result); simpl;
    rewrite ?(lookup_insert_ne _ "settings") by congruence;
    rewrite (lookup_insert_ne _ "lastScan") by congruence;
    rewrite (lookup_insert_ne _ (scanKeyUrl url)) by congruence;
    rewrite (lookup_insert_ne _ (scanKeyTab tabId)) by congruence;
    reflexivity.
Qed.

Lemma store_lookup_kept (tabId : Z) (url : string) (result : ScanResult) (t t' : Z)
    (st : State) (k : string) :
  is_Some (storage st !! k) ->
  is_Some (storage (storeScanResult tabId url result t t' st) !! k).
Proof.
  intros H. unfold storeScanResult.
  destruct (res_score result); simpl;
    repeat (rewrite lookup_insert; case_decide; [eauto|]); exact H.
Qed.

Lemma heuristic_score_range (url : string) :
  suspicious (checkSuspiciousDomain url) = true ->
  exists sc, dc_score (checkSuspiciousDomain url) = Some sc /\ 70 <= sc <= 95 /\
             dc_risk_level (checkSuspiciousDomain url) = Some HIGH_RISK.
Proof.
  unfold checkSuspiciousDomain.
  destruct (matchPattern _) as [item|] eqn:Hm.
  - destruct (score item =? 0) eqn:Hz; [discriminate|]. intros _.
    destruct (matchPattern_In _ _ Hm) as [Hin _].
    apply Z.eqb_neq in Hz. exists (score item). simpl.
    unfold suspiciousPatterns in Hin. simpl in Hin.
    repeat (destruct Hin as [<-|Hin];
            [first [exfalso; apply Hz; reflexivity
                   | split; [reflexivity | split; [simpl; lia | reflexivity]]]|]).
    destruct Hin.
  - destruct (Str.hasDigit _); [|discriminate].
    destruct (matchBrand _ _); [|discriminate].
    intros _. exists 85. simpl. repeat split; lia.
Qed.

(** X7.  When the service answers with a 2xx status and a JSON body, the
    body is stored as it is under the tab, the URL and the last-scan
    pointer (its risk level is not recomputed from the score), the icon
    follows the score, the banner is requested exactly when the score is at
    least 70 and warnings are on, the popup is notified, and a body with a
    score adds its entry to the history while one without leaves it. *)
Theorem service_result_is_recorded (st : State) (url : string) (tabId : Z) (env : ScanEnv)
    (r : Response) (result : ScanResult)
    (Hresp : outcome env = Responded r) (Hok : ok r = true) (Hbody : body r = Some result) :
  let st' := scanUrl url tabId env st in
  storage st' !! scanKeyTab tabId = Some (VResult result) /\
  storage st' !! scanKeyUrl url = Some (VResult result) /\
  storage st' !! "lastScan" = Some (VLastScan (mkLastScan tabId url result (storedAt env))) /\
  effects st' =
    (ScanComplete tabId result ::
     (if geq (res_score result) 70 && showWarnings (settings st)
      then [ShowWarning tabId (res_score result)] else []) ++
     SetIcon tabId (iconPathForScore (res_score result)) ::
     Fetch url :: SetIcon tabId CONFIG.icons_safe :: effects st)%list /\
  historyOf st' =
    match res_score result with
    | Some s => unshiftCapped (mkEntry url s (res_risk_level result) (loggedAt env))
                  (historyOf st)
    | None => historyOf st
    end.
Proof.
  cbv zeta.
  assert (Hres : scanResultOf url env = Some result).
  { unfold scanResultOf. rewrite Hresp, Hok. exact Hbody. }
  pose proof (scanUrl_store url tabId env st) as Hst.
  pose proof (scanUrl_effects url tabId env st) as Heff.
  cbv zeta in Hst, Heff. rewrite Hres in Hst, Heff. destruct Hst as [Hs Hg].
  rewrite Hs. unfold historyOf. rewrite Hg, store_history.
  rewrite store_tab_entry, store_url_entry, store_lastScan.
  repeat split; try reflexivity. exact Heff.
Qed.

Lemma service_result_is_recorded_witness :
  storage (scanUrl "https://shop.example/" 9 riskyAnswer emptyState) !! scanKeyTab 9 =
    Some (VResult (mkResult (Some 82) (Some "low") (Some []))) /\
  historyOf (scanUrl "https://shop.example/" 9 riskyAnswer emptyState) =
    [ mkEntry "https://shop.example/" 82 (Some "low") 5001 ].
Proof.
  destruct (service_result_is_recorded emptyState "https://shop.example/" 9 riskyAnswer
              _ _ eq_refl eq_refl eq_refl) as (H1 & _ & _ & _ & H5).
  split; [exact H1 | exact H5].
Defined.

(** X8.  A scan that falls back to the heuristic and finds the domain
    suspicious always ends with the danger icon, stores a score between 70
    and 95, and requests the banner exactly when warnings are on. *)
Theorem dead_site_alarm (st : State) (url : string) (tabId : Z) (env : ScanEnv)
    (r : Response) (Hresp : outcome env = Responded r) (Hnok : ok r = false)
    (Hsusp : suspicious (checkSuspiciousDomain url) = true) :
  let st' := scanUrl url tabId env st in
  exists sc findings,
    70 <= sc <= 95 /\
    readScan tabId st' = Some (VResult (mkResult (Some sc) (Some HIGH_RISK) (Some findings))) /\
    iconOf tabId st' = Some CONFIG.icons_danger /\
    effects st' =
      (ScanComplete tabId (mkResult (Some sc) (Some HIGH_RISK) (Some findings)) ::
       (if showWarnings (settings st) then [ShowWarning tabId (Some sc)] else []) ++
       SetIcon tabId CONFIG.icons_danger ::
       Fetch url :: SetIcon tabId CONFIG.icons_safe :: effects st)%list.
Proof.
  cbv zeta.
  destruct (heuristic_score_range url Hsusp) as (sc & Hsc & Hrange & Hrl).
  destruct (suspicious_findings url Hsusp) as [f Hf].
  assert (Hres : scanResultOf url env =
                 Some (mkResult (Some sc) (Some HIGH_RISK) (Some f))).
  { unfold scanResultOf, deadSiteResult. rewrite Hresp, Hnok, Hsusp, Hsc, Hrl, Hf.
    reflexivity. }
  pose proof (scanUrl_effects url tabId env st) as Heff.
  cbv zeta in Heff. rewrite Hres in Heff.
  assert (Hge : geq (Some sc) 70 = true) by (simpl; lia).
  assert (Hicon : iconPathForScore (Some sc) = CONFIG.icons_danger).
  { unfold iconPathForScore. rewrite Hge. reflexivity. }
  cbn [res_score] in Heff. rewrite Hge, Hicon in Heff. cbn [andb] in Heff.
  exists sc, f. split; [exact Hrange|]. split; [|split].
  - rewrite readScan_scanUrl, Hres. reflexivity.
  - unfold iconOf. rewrite Heff. destruct (showWarnings _); simpl;
      rewrite decide_True by reflexivity; reflexivity.
  - exact Heff.
Qed.

Lemma dead_site_alarm_witness :
  iconOf 3 (scanUrl "http://paypa1-secure.com/login" 3 badGateway emptyState) =
  Some CONFIG.icons_danger.
Proof.
  destruct (dead_site_alarm emptyState "http://paypa1-secure.com/login" 3 badGateway
              _ eq_refl eq_refl ltac:(vm_compute; reflexivity))
    as (sc & f & _ & _ & H & _).
  exact H.
Defined.

(** X9.  A scan of one tab, for a URL (which has a colon), does not touch
    the per-tab entry of any other tab, whatever its outcome, and never
    changes the two flags of the settings. *)
Theorem scan_leaves_other_tabs (st : State) (url : string) (tabId other : Z) (env : ScanEnv)
    (Hurl : Str.includes ":" url = true) (Hother : other <> tabId) :
  let st' := scanUrl url tabId env st in
  readScan other st' = readScan other st /\
  autoScan (settings st') = autoScan (settings st) /\
  showWarnings (settings st') = showWarnings (settings st).
Proof.
  cbv zeta. pose proof (scanUrl_store url tabId env st) as H. cbv zeta in H.
  assert (Hk : scanKeyTab other <> scanKeyTab tabId).
  { intros E. apply Hother, scanKeyTab_inj, E. }
  unfold readScan. destruct (scanResultOf url env) as [r|]; destruct H as [-> ->].
  - rewrite store_lookup_other.
    + split; [apply lookup_delete_ne; congruence|].
      apply (store_flags tabId url r (storedAt env) (loggedAt env) (clearTabCache tabId st)).
    + apply not_eq_sym, settings_not_tab.
    + apply not_eq_sym, lastScan_not_tab.
    + apply not_eq_sym, url_key_not_tab_key, Hurl.
    + exact Hk.
  - split; [apply lookup_delete_ne; congruence | auto].
Qed.

Lemma scan_leaves_other_tabs_witness :
  let before := storeScanResult 4 "https://a.example/" (mkResult (Some 10) None None)
                  10 11 emptyState in
  readScan 4 (scanUrl "http://paypa1-secure.com/login" 3 badGateway before) =
  readScan 4 before.
Proof.
  intros before.
  destruct (scan_leaves_other_tabs before "http://paypa1-secure.com/login" 3 4 badGateway
              ltac:(vm_compute; reflexivity) ltac:(discriminate)) as [H _].
  exact H.
Defined.

(** X10.  Apart from the scanned tab's own entry, no scan ever removes a
    key from the store: mirror entries, once written, stay until the whole
    store is cleared. *)
Theorem scan_keeps_other_keys (st : State) (url : string) (tabId : Z) (env : ScanEnv)
    (k : string) (Hk : k <> scanKeyTab tabId) (Hstored : is_Some (storage st !! k)) :
  is_Some (storage (scanUrl url tabId env st) !! k).
Proof.
  pose proof (scanUrl_store url tabId env st) as H. cbv zeta in H.
  assert (Hd : is_Some (delete (scanKeyTab tabId) (storage st) !! k)).
  { rewrite lookup_delete_ne by congruence. exact Hstored. }
  destruct (scanResultOf url env) as [r|]; destruct H as [-> _].
  - apply store_lookup_kept. exact Hd.
  - exact Hd.
Qed.

Lemma scan_keeps_other_keys_witness :
  let before := storeScanResult 3 "https://a.example/" (mkResult (Some 10) None None)
                  10 11 emptyState in
  is_Some (storage (scanUrl "https://b.example/" 3 timedOut before)
             !! scanKeyUrl "https://a.example/").
Proof.
  intros before. apply scan_keeps_other_keys.
  - apply url_key_not_tab_key. vm_compute. reflexivity.
  - subst before. rewrite store_url_entry. eauto.
Defined.

(** ** Messages and triggers *)




(** X12.  The [clearCache] message empties the store: no tab has an entry
    or a fresh record afterwards.  The history in memory is not cleared, so
    [getHistory] still answers with it; a restart after the clearing
    starts from an empty history. *)
Theorem clearCache_message (st : State) (tabs : list Tab) (now : Z)
    (progress : Progress) (env : ScanEnv) :
  let st' := snd (onMessage ClearCache tabs now progress env st) in
  fst (onMessage ClearCache tabs now progress env st) = ReplySuccess /\
  (forall k, storage st' !! k = None) /\
  (forall tabId t, readScan tabId st' = None /\ freshScan tabId t st' = None) /\
  fst (onMessage GetHistory tabs now progress env st') = ReplyHistory (historyOf st) /\
  historyOf (restart st') = [].
Proof.
  cbv zeta. simpl.
  split; [reflexivity|]. split; [intros k; apply lookup_empty|].
  split; [|split].
  - intros tabId t. unfold freshScan, readScan. simpl. rewrite lookup_empty. auto.
  - reflexivity.
  - unfold restart, loadSettings. simpl. rewrite lookup_empty. reflexivity.
Qed.

(** X13.  A navigation update starts nothing, and leaves the state as it
    is, when the page is a browser page ([chrome://], [brave://],
    [about:]), when the update is not the completion of the load, when the
    tab has no URL, or when auto-scan is off. *)
Theorem navigation_filter (st : State) (tabId : Z) (changeStatus : option string) (tab : Tab)
    (env : ScanEnv)
    (Hskip : changeStatus <> Some "complete" \/
             tab_url tab = None \/ tab_url tab = Some "" \/
             autoScan (settings st) = false \/
             exists url, tab_url tab = Some url /\
               (Str.startsWith "chrome://" url = true \/
                Str.startsWith "brave://" url = true \/
                Str.startsWith "about:" url = true)) :
  onUpdated tabId changeStatus tab env st = st.
Proof.
  unfold onUpdated.
  destruct changeStatus as [s|]; [|reflexivity].
  destruct (tab_url tab) as [url|]; [|reflexivity].
  destruct (String.eqb s "complete") eqn:Es; [|reflexivity].
  destruct (String.eqb url "") eqn:Eu; [reflexivity|].
  destruct (autoScan (settings st)) eqn:Ea; [|reflexivity]. cbn [andb negb].
  apply String.eqb_eq in Es. apply String.eqb_neq in Eu.
  destruct Hskip as [H|[H|[H|[H|(u & Hu & H)]]]]; try congruence.
  injection Hu as <-.
  destruct H as [H|[H|H]]; rewrite H; cbn [andb negb]; rewrite ?andb_false_r; reflexivity.
Qed.

Lemma navigation_filter_witness :
  onUpdated 3 (Some "complete") (mkTab 3 (Some "chrome://extensions/")) timedOut emptyState =
  emptyState.
Proof.
  apply navigation_filter. right. right. right. right.
  exists "chrome://extensions/". split; [reflexivity|]. left. reflexivity.
Defined.

(** X14.  Switching to a tab has no such filter: with auto-scan on, any
    tab with a URL is scanned, so the URL of a browser page is sent to the
    scoring service too; and there is no freshness test, the first step of
    the scan removing the tab's entry however fresh it is. *)
Theorem activation_always_scans (st : State) (tabId : Z) (url : string) (env : ScanEnv)
    (Hurl : url <> "") (Hauto : autoScan (settings st) = true) :
  let st' := onActivated tabId (mkTab tabId (Some url)) env st in
  st' = scanUrl url tabId env st /\
  In (Fetch url) (effects st') /\
  fetchCount (effects st') = S (fetchCount (effects st)) /\
  readScan tabId (snd (stepScan (mkScan url tabId env) Starting st)) = None.
Proof.
  cbv zeta. unfold onActivated. simpl.
  apply String.eqb_neq in Hurl. rewrite Hurl, Hauto. simpl.
  pose proof (scanUrl_effects url tabId env st) as H. cbv zeta in H.
  split; [reflexivity|]. split; [|split].
  - destruct (scanResultOf url env) as [r|].
    + rewrite H. destruct (geq _ _ && _); simpl; tauto.
    + destruct H as [e ->]. simpl. tauto.
  - destruct (scanResultOf url env) as [r|].
    + rewrite H. destruct (geq _ _ && _); reflexivity.
    + destruct H as [e ->]. reflexivity.
  - unfold readScan. apply lookup_delete_eq.
Qed.

Lemma activation_always_scans_witness :
  In (Fetch "chrome://settings/passwords")
    (effects (onActivated 3 (mkTab 3 (Some "chrome://settings/passwords")) timedOut
                emptyState)).
Proof.
  destruct (activation_always_scans emptyState 3 "chrome://settings/passwords" timedOut
              ltac:(discriminate) eq_refl) as (_ & H & _).
  exact H.
Defined.

(** ** What holds in every state the extension can reach *)

Lemma consistent_same (st st' : State) :
  storage st' = storage st -> settings st' = settings st ->
  consistent st -> consistent st'.
Proof.
  unfold consistent, historyOf, readScan. intros -> ->. auto.
Qed.

Lemma consistent_empty : consistent emptyState.
Proof.
  unfold consistent, emptyState, historyOf, readScan. simpl.
  repeat split; try lia; intros v H; rewrite lookup_empty in H; discriminate H.
Qed.

Lemma consistent_clear (tabId : Z) (st : State) :
  consistent st -> consistent (clearTabCache tabId st).
Proof.
  unfold consistent, historyOf, readScan, clearTabCache. simpl.
  intros (Hh & Ha & Hw & Hs & Hl). repeat split; auto.
  - intros v Hv. apply Hs.
    rewrite lookup_delete_ne in Hv by (apply not_eq_sym, settings_not_tab). exact Hv.
  - intros v Hv.
    rewrite lookup_delete_ne in Hv by (apply not_eq_sym, lastScan_not_tab).
    destruct (Hl v Hv) as (l & -> & Hentry). exists l. split; [reflexivity|].
    intros w Hw'. apply Hentry.
    apply lookup_delete_Some in Hw' as [_ Hw']. exact Hw'.
Qed.

Lemma store_settings_key (tabId : Z) (url : string) (result : ScanResult) (t t' : Z)
    (st : State) :
  storage (storeScanResult tabId url result t t' st) !! "settings" =
  match res_score result with
  | Some _ => Some (VSettings (settings (storeScanResult tabId url result t t' st)))
  | None => storage st !! "settings"
  end.
Proof.
  unfold storeScanResult. destruct (res_score result); simpl.
  - apply lookup_insert_eq.
  - rewrite (lookup_insert_ne _ "lastScan") by discriminate.
    rewrite (lookup_insert_ne _ (scanKeyUrl url)) by (apply not_eq_sym, settings_not_url).
    rewrite (lookup_insert_ne _ (scanKeyTab tabId)) by (apply not_eq_sym, settings_not_tab).
    reflexivity.
Qed.

Lemma consistent_store (tabId : Z) (url : string) (result : ScanResult) (t t' : Z)
    (st : State) :
  consistent st -> consistent (storeScanResult tabId url result t t' st).
Proof.
  intros (Hh & Ha & Hw & Hs & Hl).
  destruct (store_flags tabId url result t t' st) as [Fa Fw].
  unfold consistent. repeat split.
  - unfold historyOf in *. rewrite store_history.
    destruct (res_score result); [apply unshiftCapped_length|]; exact Hh.
  - congruence.
  - congruence.
  - intros v. rewrite store_settings_key.
    destruct (res_score result) eqn:Hsc.
    + intros [= <-]. reflexivity.
    + intros Hv. rewrite (Hs v Hv). f_equal.
      unfold storeScanResult. rewrite Hsc. reflexivity.
  - intros v. rewrite store_lastScan. intros [= <-].
    eexists. split; [reflexivity|]. simpl. unfold readScan.
    rewrite store_tab_entry. intros w [= <-]. reflexivity.
Qed.

Lemma consistent_scanUrl (url : string) (tabId : Z) (env : ScanEnv) (st : State) :
  consistent st -> consistent (scanUrl url tabId env st).
Proof.
  intros H. pose proof (scanUrl_store url tabId env st) as Hst. cbv zeta in Hst.
  destruct (scanResultOf url env) as [r|]; destruct Hst as [Hs Hg].
  - eapply consistent_same; [exact Hs | exact Hg|].
    apply consistent_store, consistent_clear, H.
  - apply (consistent_same (clearTabCache tabId st)); [exact Hs | exact Hg|].
    apply consistent_clear, H.
Qed.

Lemma consistent_getCurrentScan (tabs : list Tab) (now : Z) (progress : Progress)
    (st : State) :
  consistent st -> consistent (snd (getCurrentScan tabs now progress st)).
Proof.
  intros H. unfold getCurrentScan.
  destruct tabs as [|tab tabs]; [exact H|].
  destruct (freshScan _ _ _); [exact H|].
  destruct (tab_url tab) as [url|]; [|exact H].
  destruct (String.eqb url ""); [exact H|]. simpl.
  destruct progress as [|env].
  - apply (consistent_same (clearTabCache (tab_id tab) st)); [reflexivity..|].
    apply consistent_clear, H.
  - apply consistent_scanUrl, H.
Qed.

Lemma consistent_restart (st : State) : consistent st -> consistent (restart st).
Proof.
  intros H. pose proof H as (Hh & Ha & Hw & Hs & Hl).
  unfold restart, loadSettings. simpl.
  destruct (storage st !! "settings") as [v|] eqn:Hv.
  - rewrite (Hs v eq_refl). apply (consistent_same st); [reflexivity..|exact H].
  - unfold consistent, historyOf, readScan in *. simpl.
    repeat split; try lia; [|exact Hl].
    intros v Hv'. congruence.
Qed.

Lemma consistent_handle (st : State) (ev : Event) :
  consistent st -> consistent (handle st ev).
Proof.
  intros H. destruct ev as [tabId cs tab env|tabId tab env|req tabs now progress env|]; simpl.
  - unfold onUpdated. destruct cs; [|exact H]. destruct (tab_url tab); [|exact H].
    destruct (_ && _ && _); [|exact H]. destruct (_ && _ && _); [|exact H].
    apply consistent_scanUrl, H.
  - unfold onActivated. destruct (tab_url tab); [|exact H].
    destruct (_ && _); [|exact H]. apply consistent_scanUrl, H.
  - destruct req; simpl; try exact H.
    + pose proof (consistent_getCurrentScan tabs now progress st H) as Hg.
      destruct (getCurrentScan tabs now progress st). exact Hg.
    + apply consistent_scanUrl, consistent_clear, H.
    + destruct H as (Hh & Ha & Hw & _ & _).
      unfold consistent, historyOf, readScan, clearStorage. simpl.
      repeat split; auto; intros v Hv; rewrite lookup_empty in Hv; discriminate Hv.
  - apply consistent_restart, H.
Qed.

Lemma consistent_run (events : list Event) : consistent (run events).
Proof.
  unfold run. generalize consistent_empty. generalize emptyState.
  induction events as [|ev events IH]; intros st H; simpl; [exact H|].
  apply IH, consistent_handle, H.
Qed.

Lemma scanUrl_lastScan (url : string) (tabId : Z) (env : ScanEnv) (st : State)
    (r : ScanResult) :
  scanResultOf url env = Some r ->
  storage (scanUrl url tabId env st) !! "lastScan" =
  Some (VLastScan (mkLastScan tabId url r (storedAt env))).
Proof.
  intros Hr. pose proof (scanUrl_store url tabId env st) as H. cbv zeta in H.
  rewrite Hr in H. destruct H as [-> _]. apply store_lastScan.
Qed.

(** X15.  From a fresh install, whatever happens (navigations, tab
    switches, messages, restarts), the history that [getHistory] answers
    with never has more than 20 entries. *)
Theorem history_never_exceeds_cap (events : list Event) (tabs : list Tab) (now : Z)
    (progress : Progress) (env : ScanEnv) :
  exists history,
    fst (onMessage GetHistory tabs now progress env (run events)) = ReplyHistory history /\
    (length history <= 20)%nat.
Proof.
  exists (historyOf (run events)). split; [reflexivity|].
  apply (consistent_run events).
Qed.

(** X16.  Nothing the extension does turns auto-scan or the warnings off:
    from a fresh install both flags stay on, so every scan that stores a
    score of at least 70 requests the banner. *)
Theorem flags_stay_on (events : list Event) (url : string) (tabId : Z) (env : ScanEnv) :
  let st := run events in
  autoScan (settings st) = true /\
  showWarnings (settings st) = true /\
  (forall r, scanResultOf url env = Some r -> geq (res_score r) 70 = true ->
     In (ShowWarning tabId (res_score r)) (effects (scanUrl url tabId env st))).
Proof.
  cbv zeta. destruct (consistent_run events) as (_ & Ha & Hw & _).
  split; [exact Ha|]. split; [exact Hw|].
  intros r Hr Hge. pose proof (scanUrl_effects url tabId env (run events)) as H.
  cbv zeta in H. rewrite Hr in H. rewrite H, Hge, Hw. simpl. tauto.
Qed.

Lemma flags_stay_on_witness :
  In (ShowWarning 9 (Some 82))
    (effects (scanUrl "https://shop.example/" 9 riskyAnswer
                (run [Message ClearCache [] 0 StillFetching timedOut; Restarted]))).
Proof.
  destruct (flags_stay_on [Message ClearCache [] 0 StillFetching timedOut; Restarted]
              "https://shop.example/" 9 riskyAnswer) as (_ & _ & H).
  apply (H (mkResult (Some 82) (Some "low") (Some []))); reflexivity.
Defined.

(** X17.  From a fresh install, whenever the [getCurrentScan] query
    answers from the cache, the answer is the result of the globally last
    scan, that scan was for the queried tab, and it is less than 30 seconds
    old. *)
Theorem fresh_answer_is_last_result (events : list Event) (tabId now : Z) (v : StoreValue)
    (Hfresh : freshScan tabId now (run events) = Some v) :
  exists l,
    storage (run events) !! "lastScan" = Some (VLastScan l) /\
    ls_tabId l = tabId /\
    v = VResult (ls_result l) /\
    now - ls_timestamp l < 30000.
Proof.
  apply freshScan_spec in Hfresh as (Hread & l & Hl & Htab & Hage).
  destruct (consistent_run events) as (_ & _ & _ & _ & Hlast).
  destruct (Hlast _ Hl) as (l' & [= <-] & Hentry).
  exists l. repeat split; auto. apply Hentry. rewrite Htab. exact Hread.
Qed.

Lemma fresh_answer_is_last_result_witness :
  exists l,
    storage (run [Activated 9 (mkTab 9 (Some "https://shop.example/")) riskyAnswer])
      !! "lastScan" = Some (VLastScan l) /\
    ls_tabId l = 9 /\
    VResult (mkResult (Some 82) (Some "low") (Some [])) = VResult (ls_result l) /\
    6000 - ls_timestamp l < 30000.
Proof.
  apply (fresh_answer_is_last_result
           [Activated 9 (mkTab 9 (Some "https://shop.example/")) riskyAnswer] 9 6000).
  change (run [Activated 9 (mkTab 9 (Some "https://shop.example/")) riskyAnswer])
    with (scanUrl "https://shop.example/" 9 riskyAnswer emptyState).
  apply freshScan_spec. split.
  - rewrite readScan_scanUrl. reflexivity.
  - eexists. split; [apply scanUrl_lastScan; reflexivity|].
    split; [reflexivity | simpl; lia].
Defined.

(** X18.  From a fresh install, the settings found in the store are always
    the ones in memory, so a restart either brings back exactly the
    settings and history it had, or, when the store holds no settings (a
    cleared store), starts from the defaults with an empty history. *)
Theorem stored_settings_agree (events : list Event) :
  let st := run events in
  (forall v, storage st !! "settings" = Some v -> v = VSettings (settings st)) /\
  (settings (restart st) = settings st \/
   storage st !! "settings" = None /\ settings (restart st) = initialSettings).
Proof.
  cbv zeta. destruct (consistent_run events) as (_ & _ & _ & Hs & _).
  split; [exact Hs|]. unfold restart, loadSettings. simpl.
  destruct (storage (run events) !! "settings") as [v|] eqn:Hv.
  - left. rewrite (Hs v eq_refl). reflexivity.
  - right. auto.
Qed.

(** X19.  A write whose result has a score saves the settings it leaves in
    memory: a restart right after it brings back the same settings, with
    the same history. *)
Theorem history_survives_restart (st : State) (tabId : Z) (url : string)
    (result : ScanResult) (t t' s : Z) (Hscore : res_score result = Some s) :
  let written := storeScanResult tabId url result t t' st in
  settings (restart written) = settings written /\
  historyOf (restart written) = historyOf written.
Proof.
  cbv zeta.
  assert (E : settings (restart (storeScanResult tabId url result t t' st)) =
              settings (storeScanResult tabId url result t t' st)).
  { unfold restart, loadSettings. cbn [storage].
    rewrite store_settings_key, Hscore. reflexivity. }
  split; [exact E|]. unfold historyOf. rewrite E. reflexivity.
Qed.

Lemma history_survives_restart_witness :
  historyOf (restart (storeScanResult 1 "https://example.com/"
                        (mkResult (Some 50) None None) 1000 1001 emptyState)) =
  historyOf (storeScanResult 1 "https://example.com/"
               (mkResult (Some 50) None None) 1000 1001 emptyState).
Proof.
  destruct (history_survives_restart emptyState 1 "https://example.com/"
              (mkResult (Some 50) None None) 1000 1001 50 eq_refl) as [_ H].
  exact H.
Defined.



(** X21.  The freshness window is half-open: what was written at time [T]
    for a tab is fresh for that tab at every time before [T + 30000 ms]
    (also at times before [T]) and stale from exactly [T + 30000 ms] on. *)
Theorem freshness_window (st : State) (tabId : Z) (url : string) (result : ScanResult)
    (T T' now : Z) :
  let st1 := storeScanResult tabId url result T T' st in
  (freshScan tabId now st1 = Some (VResult result) <-> now < T + 30000) /\
  (freshScan tabId now st1 = None <-> T + 30000 <= now) /\
  freshScan tabId (T + 29999) st1 = Some (VResult result) /\
  freshScan tabId (T + 30000) st1 = None.
Proof.
  cbv zeta.
  assert (E : forall t, freshScan tabId t (storeScanResult tabId url result T T' st) =
                        if t - T <? 30000 then Some (VResult result) else None).
  { intros t. unfold freshScan, readScan. rewrite store_tab_entry, store_lastScan. simpl.
    rewrite decide_True by reflexivity. reflexivity. }
  rewrite !E.
  replace (T + 29999 - T <? 30000) with true by lia.
  replace (T + 30000 - T <? 30000) with false by lia.
  destruct (now - T <? 30000) eqn:H; [apply Z.ltb_lt in H | apply Z.ltb_ge in H];
    repeat split; intros; first [reflexivity | discriminate | lia].
Qed.

(** X22.  While a run of [scanUrl] is the only one in flight for its tab,
    then however the runs for other tabs (for URLs, which have a colon) are
    interleaved with it, once it has returned the level the popup shows for
    the tab agrees with the toolbar icon: CRITICAL with the danger icon,
    MEDIUM with the warning icon, SAFE with the safe icon, a failed run
    giving the popup's default score 0 and the safe icon. *)
Theorem popup_agrees_with_icon (scans : list Scan) (i : nat) (sc : Scan)
    (schedule : list nat) (st0 : State) (stage : Stage)
    (Hi : scans !! i = Some sc)
    (Halone : aloneOnTab i (scan_tabId sc) scans)
    (Hstage : snd (interleave schedule (st0, launch scans)) !! i = Some (sc, stage))
    (Hreturned : (exists result, stage = Settled result) \/ (exists e, stage = Failed e)) :
  let st := fst (interleave schedule (st0, launch scans)) in
  let tabId := scan_tabId sc in
  iconOf tabId st = Some (iconPathForScore (popupScore tabId st)) /\
  (iconOf tabId st = Some CONFIG.icons_danger <-> popupLevel tabId st = "🔴 CRITICAL") /\
  (iconOf tabId st = Some CONFIG.icons_warning <-> popupLevel tabId st = "🟡 MEDIUM") /\
  (iconOf tabId st = Some CONFIG.icons_safe <-> popupLevel tabId st = "✅ SAFE").
Proof.
  cbv zeta.
  destruct (interleave_tracks scans i sc schedule st0 Hi Halone) as (stage' & Hs' & Ht).
  rewrite Hstage in Hs'. injection Hs' as <-.
  set (st := fst (interleave schedule (st0, launch scans))) in *.
  assert (Hicon : iconOf (scan_tabId sc) st =
                  Some (iconPathForScore (popupScore (scan_tabId sc) st))).
  { unfold popupScore. destruct Ht as [_ Ht].
    destruct Hreturned as [[result ->]|[e ->]]; destruct Ht as [-> ->]; reflexivity. }
  split; [exact Hicon|]. rewrite Hicon. unfold popupLevel.
  generalize (popupScore (scan_tabId sc) st). intros score.
  unfold iconPathForScore, riskLevelText.
  destruct (geq score 70); [|destruct (geq score 40)];
    repeat split; intros E; first [reflexivity | discriminate E].
Qed.

(** A run for tab 3 that stores a score of 82, interleaved with a run for
    tab 4. *)
Lemma popup_agrees_with_icon_witness :
  let st := fst (interleave [0; 1; 0; 1; 0; 1; 0; 1; 0; 1]%nat
                   (emptyState, launch [answeredScan; neighbourScan])) in
  iconOf 3 st = Some CONFIG.icons_danger /\ popupLevel 3 st = "🔴 CRITICAL".
Proof.
  intros st.
  destruct (popup_agrees_with_icon [answeredScan; neighbourScan] 0%nat answeredScan
              [0; 1; 0; 1; 0; 1; 0; 1; 0; 1]%nat emptyState
              (Settled (mkResult (Some 82) (Some "low") (Some []))) eq_refl)
    as (Hicon & Hdanger & _).
  - intros j other Hj Hother. destruct j as [|[|j]]; [congruence| |discriminate Hother].
    injection Hother as <-. split; [discriminate | vm_compute; reflexivity].
  - vm_compute. reflexivity.
  - left. eexists. reflexivity.
  - assert (E : iconOf 3 st = Some CONFIG.icons_danger) by (vm_compute; reflexivity).
    split; [exact E | apply Hdanger, E].
Defined.
